(** * morphism-labs/node: deposit-log decoding and the block-lifecycle executor

    A shallow embedding of [sync/deposit_log.go] and [node/executor.go].
    Byte strings are [list byte]; Go's [uint64] values are [Z] with the
    wrap-around written out; a Go [(value, error)] pair whose value is
    meaningless when the error is set is a sum [E + A]. *)

From Stdlib Require Import ZArith List Bool Lia.
From Stdlib.Strings Require Import Byte.
Import ListNotations.
Local Open Scope Z_scope.

(** ** Bytes, fixed-width integers and slices *)

Definition Bytes := list byte.

Definition byte_val (b : byte) : Z := Z.of_N (Byte.to_N b).

Definition bytes_eqb (a b : Bytes) : bool :=
  if list_eq_dec Byte.byte_eq_dec a b then true else false.

(** [len(s)] as a Go [int]. *)
Definition len {A : Type} (s : list A) : Z := Z.of_nat (length s).

(** Go's [s[lo:hi]] for in-range bounds [lo <= hi <= len(s)]. *)
Definition slice {A : Type} (lo hi : Z) (s : list A) : list A :=
  firstn (Z.to_nat (hi - lo)) (skipn (Z.to_nat lo) s).

(** Go's [s[lo:]]. *)
Definition slice_from {A : Type} (lo : Z) (s : list A) : list A :=
  skipn (Z.to_nat lo) s.

Definition uint64_max : Z := 2 ^ 64 - 1.

(** Conversion to [uint64] and [uint64] arithmetic wrap modulo 2^64. *)
Definition uint64 (z : Z) : Z := z mod 2 ^ 64.

(** Conversion [int64(x)] of a [uint64]. *)
Definition int64 (z : Z) : Z :=
  let w := z mod 2 ^ 64 in if w <? 2 ^ 63 then w else w - 2 ^ 64.

(** [SetBytes] of [big.Int] and, on at most 32 bytes, of [uint256.Int]:
    the bytes read as one big-endian unsigned integer. *)
Definition SetBytes (b : Bytes) : Z :=
  fold_left (fun acc x => acc * 256 + byte_val x) b 0.

Definition IsUint64 (z : Z) : bool := (0 <=? z) && (z <=? uint64_max).

(** [Uint64()] returns the low 64 bits. *)
Definition Uint64 (z : Z) : Z := z mod 2 ^ 64.

(** ** Hashes and addresses ([common.Hash] is [[32]byte], [common.Address]
    is [[20]byte]) *)

Definition Hash := Bytes.
Definition Address := Bytes.

Definition AddressLength : Z := 20.

Definition zeroHash : Hash := repeat x00 32.
Definition zeroAddress : Address := repeat x00 20.

(** [common.BytesToAddress]: keeps the last 20 bytes of a longer slice and
    left-pads a shorter one with zeros. *)
Definition BytesToAddress (b : Bytes) : Address :=
  let b' := if AddressLength <? len b then slice_from (len b - AddressLength) b else b in
  repeat x00 (Z.to_nat (AddressLength - len b')) ++ b'.

(** ** Logs, receipts and decoded messages *)

Record Log := mkLog {
  log_Address : Address;
  log_Topics : list Hash;
  log_Data : Bytes;
  log_BlockNumber : Z;
  log_TxHash : Hash
}.

Definition ReceiptStatusFailed : Z := 0.
Definition ReceiptStatusSuccessful : Z := 1.

Record Receipt := mkReceipt {
  rec_Status : Z;
  rec_Logs : list Log
}.

(** [types.L1MessageTx] of the execution client.  [Sender] is declared by
    that type; the decoder below never assigns it, so it keeps Go's zero
    value. *)
Record L1MessageTx := mkL1MessageTx {
  QueueIndex : Z;
  Gas : Z;
  To : option Address;
  Value : Z;
  Data : Bytes;
  Sender : Address
}.

Record L1Message := mkL1Message {
  L1Tx : L1MessageTx;
  L1Height : Z;
  L1TxHash : Hash
}.

(** ** Decode errors, one constructor per [fmt.Errorf] site *)

Inductive Version0Error : Type :=
| ErrOpaqueDataLength (n : Z)
| ErrBadGasValue (raw : Bytes).

Inductive DecodeError : Type :=
| ErrTopicCount (n : Z)
| ErrEventSelector (got : Hash)
| ErrIncompleteHeader (n : Z)
| ErrDataNotMultipleOf32 (n : Z)
| ErrHeaderOffset (off : Z)
| ErrHeaderLength (l : Z)
| ErrDepositVersion (v : Hash)
| ErrDecodeDeposit (v : Hash) (cause : Version0Error).

(** ** Event constants *)

(** [crypto.Keccak256Hash] of
    ["TransactionDeposited(address,address,uint256,bytes)"]. *)
Definition DepositEventABIHash : Hash :=
  [xb3; x81; x35; x68; xd9; x99; x1f; xc9; x51; x96; x1f; xcb; x4c; x78; x48; x93;
   x57; x42; x40; xa2; x89; x25; x60; x4d; x09; xfc; x57; x7c; x55; xbb; x7c; x32].

Definition DepositEventVersion0 : Hash := zeroHash.

(** ** [unmarshalDepositVersion0] *)

Definition unmarshalDepositVersion0 (to : Address) (opaqueData : Bytes)
  : Version0Error + L1MessageTx :=
  if len opaqueData <? 32 + 32 + 8 + 1 then inl (ErrOpaqueDataLength (len opaqueData))
  else
    let offset := 0 in
    (* uint256 mint: read, traced, not stored *)
    let mint := SetBytes (slice offset (offset + 32) opaqueData) in
    let offset := offset + 32 in
    (* uint256 value *)
    let value := SetBytes (slice offset (offset + 32) opaqueData) in
    let offset := offset + 32 in
    (* uint64 gas *)
    let gas := SetBytes (slice offset (offset + 8) opaqueData) in
    if negb (IsUint64 gas) then inl (ErrBadGasValue (slice offset (offset + 8) opaqueData))
    else
      let message_Gas := Uint64 gas in
      let offset := offset + 8 in
      (* uint8 isCreation *)
      let message_To :=
        if byte_val (nth (Z.to_nat offset) opaqueData x00) =? 0 then Some to else None in
      let offset := offset + 1 in
      let txDataLen := uint64 (uint64 (len opaqueData) - offset) in
      let message_Data := slice offset (uint64 (offset + txDataLen)) opaqueData in
      inr {| QueueIndex := 0;
             Gas := message_Gas;
             To := message_To;
             Value := value;
             Data := message_Data;
             Sender := zeroAddress |}.

(** ** [UnmarshalDepositLogEvent] *)

Definition topic (ev : Log) (i : nat) : Hash := nth i (log_Topics ev) zeroHash.

Definition UnmarshalDepositLogEvent (ev : Log) : DecodeError + L1MessageTx :=
  if negb (len (log_Topics ev) =? 4) then inl (ErrTopicCount (len (log_Topics ev)))
  else if negb (bytes_eqb (topic ev 0) DepositEventABIHash) then inl (ErrEventSelector (topic ev 0))
  else if len (log_Data ev) <? 64 then inl (ErrIncompleteHeader (len (log_Data ev)))
  else if negb (len (log_Data ev) mod 32 =? 0) then inl (ErrDataNotMultipleOf32 (len (log_Data ev)))
  else
    (* indexed 0: read, traced, not passed on *)
    let from := BytesToAddress (slice_from 12 (topic ev 1)) in
    (* indexed 1 *)
    let to := BytesToAddress (slice_from 12 (topic ev 2)) in
    (* indexed 2 *)
    let version := topic ev 3 in
    let opaqueContentOffset := SetBytes (slice 0 32 (log_Data ev)) in
    if negb (IsUint64 opaqueContentOffset) || negb (Uint64 opaqueContentOffset =? 32)
    then inl (ErrHeaderOffset (Uint64 opaqueContentOffset))
    else
      let opaqueContentLength := SetBytes (slice 32 64 (log_Data ev)) in
      if negb (IsUint64 opaqueContentLength)
         || (uint64 (len (log_Data ev) - 64) <? Uint64 opaqueContentLength)
         || (uint64 (Uint64 opaqueContentLength + 32) <=? uint64 (len (log_Data ev) - 64))
      then inl (ErrHeaderLength (Uint64 opaqueContentLength))
      else
        let opaqueData :=
          slice 64 (uint64 (64 + Uint64 opaqueContentLength)) (log_Data ev) in
        if bytes_eqb version DepositEventVersion0 then
          match unmarshalDepositVersion0 to opaqueData with
          | inl err => inl (ErrDecodeDeposit version err)
          | inr tx => inr tx
          end
        else inl (ErrDepositVersion version).

(** ** [deriveFromReceipt] *)

(** A [*multierror.Error]: the wrapped per-item errors in the order they
    were appended.  Each entry carries the receipt index, the log index and
    the decoder's error, as the format string does. *)
Record ItemError := mkItemError {
  item_receipt : Z;
  item_log : Z;
  item_cause : DecodeError
}.

Record MultiError := mkMultiError { Errors : list ItemError }.

(** [multierror.Append(result, err)]: a nil [result] becomes a fresh
    aggregate holding [err]. *)
Definition multierror_Append (result : option MultiError) (err : ItemError)
  : option MultiError :=
  match result with
  | None => Some (mkMultiError [err])
  | Some m => Some (mkMultiError (Errors m ++ [err]))
  end.

(** The filter of the inner loop. *)
Definition isDepositLog (depositContractAddr : Address) (lg : Log) : bool :=
  bytes_eqb (log_Address lg) depositContractAddr
  && (0 <? len (log_Topics lg))
  && bytes_eqb (topic lg 0) DepositEventABIHash.

(** Loop state: the [out] slice and the [result] error. *)
Definition DeriveState : Type := list L1Message * option MultiError.

(** One iteration of the inner loop, at receipt index [i] and log index [j]. *)
Definition deriveLog (depositContractAddr : Address) (i j : Z) (lg : Log)
    (st : DeriveState) : DeriveState :=
  let '(out, result) := st in
  if isDepositLog depositContractAddr lg then
    match UnmarshalDepositLogEvent lg with
    | inl err => (out, multierror_Append result (mkItemError i j err))
    | inr msg => (out ++ [mkL1Message msg (log_BlockNumber lg) (log_TxHash lg)], result)
    end
  else st.

(** The inner loop [for j, lg := range rec.Logs], from index [j]. *)
Fixpoint deriveLogs (depositContractAddr : Address) (i j : Z) (logs : list Log)
    (st : DeriveState) : DeriveState :=
  match logs with
  | [] => st
  | lg :: rest =>
      deriveLogs depositContractAddr i (j + 1) rest (deriveLog depositContractAddr i j lg st)
  end.

(** The outer loop [for i, rec := range receipts], from index [i]. *)
Fixpoint deriveReceipts (depositContractAddr : Address) (i : Z) (receipts : list Receipt)
    (st : DeriveState) : DeriveState :=
  match receipts with
  | [] => st
  | rec :: rest =>
      deriveReceipts depositContractAddr (i + 1) rest
        (if negb (rec_Status rec =? ReceiptStatusSuccessful) then st
         else deriveLogs depositContractAddr i 0 (rec_Logs rec) st)
  end.

Definition deriveFromReceipt (receipts : list Receipt) (depositContractAddr : Address)
  : list L1Message * option MultiError :=
  deriveReceipts depositContractAddr 0 receipts ([], None).

(** ** Block data exchanged with the consensus driver and the engine *)

(** [types.BLSMessage]: the attested header.  [BaseFee] is a [*big.Int],
    an unbounded integer. *)
Record BLSMessage := mkBLSMessage {
  bm_ParentHash : Hash;
  bm_Miner : Address;
  bm_Number : Z;
  bm_GasLimit : Z;
  bm_BaseFee : Z;
  bm_Timestamp : Z
}.

(** [types.NonBLSMessage]: the extended payload. *)
Record NonBLSMessage := mkNonBLSMessage {
  nbm_StateRoot : Hash;
  nbm_GasUsed : Z;
  nbm_ReceiptRoot : Hash;
  nbm_LogsBloom : Bytes;
  nbm_Extra : Bytes;
  nbm_L1Messages : list L1Message
}.

(** [catalyst.ExecutableL2Data], the fields the executor reads and writes. *)
Record ExecutableL2Data := mkExecutableL2Data {
  ParentHash : Hash;
  Miner : Address;
  Number : Z;
  GasLimit : Z;
  BaseFee : Z;
  Timestamp : Z;
  Transactions : list Bytes;
  StateRoot : Hash;
  GasUsed : Z;
  ReceiptRoot : Hash;
  LogsBloom : Bytes;
  Extra : Bytes
}.

(** Errors of the executor: its own three, and those handed up unchanged
    from the engine clients, the wire codec and the L1-message checks. *)
Inductive ExecError : Type :=
| ErrRequestBlockDataNotAllowed
| ErrCheckBlockDataNotAllowed
| ErrWrongBlockNumber
| ErrClient (code : Z)
| ErrCodec (code : Z)
| ErrL1Messages (code : Z).

(** ** The collaborators of the executor *)

(** The execution engine behind [authClient] and [ethClient], with state
    [G].  Only [NewL2Block] changes the engine. *)
Class L2Client (G : Type) := {
  AssembleL2Block : G -> Z -> list L1MessageTx -> ExecError + ExecutableL2Data;
  ValidateL2Block : G -> ExecutableL2Data -> bool * option ExecError;
  NewL2Block : G -> ExecutableL2Data -> G * option ExecError;
  BlockNumber : G -> ExecError + Z
}.

(** The read side of [sync.Syncer], with state [S]. *)
Class SyncerReader (S : Type) := {
  ReadL1MessagesInRange : S -> Z -> Z -> list L1Message
}.

(** [MarshalBinary] and [UnmarshalBinary] of the two wire messages. *)
Class WireCodec := {
  BLS_MarshalBinary : BLSMessage -> ExecError + Bytes;
  BLS_UnmarshalBinary : Bytes -> ExecError + BLSMessage;
  NonBLS_MarshalBinary : NonBLSMessage -> ExecError + Bytes;
  NonBLS_UnmarshalBinary : Bytes -> ExecError + NonBLSMessage
}.

Record Executor (S : Type) := mkExecutor {
  latestProcessedL1Index : Z;
  maxL1MsgNumPerBlock : Z;
  syncer : option S
}.
Arguments mkExecutor {S}.
Arguments latestProcessedL1Index {S}.
Arguments maxL1MsgNumPerBlock {S}.
Arguments syncer {S}.

(** The two methods of the executor that live in another file of the
    package: the inclusion check of [CheckBlockData] and the cursor update
    of [DeliverBlock], which works on the executor in place. *)
Class ExecutorHelpers (S : Type) := {
  validateL1Messages : Executor S -> list Bytes -> NonBLSMessage -> option ExecError;
  updateLatestProcessedL1Index : Executor S -> list Bytes -> Executor S * option ExecError
}.

(** The executor with its cursor moved on by [k] messages. *)
Definition advanceL1Index {S : Type} (e : Executor S) (k : Z) : Executor S :=
  mkExecutor (uint64 (latestProcessedL1Index e + k)) (maxL1MsgNumPerBlock e) (syncer e).

(** ** Requests sent to the engine *)

Inductive EngineCall : Type :=
| CallAssembleL2Block (height : Z) (txs : list L1MessageTx)
| CallValidateL2Block (blk : ExecutableL2Data)
| CallNewL2Block (blk : ExecutableL2Data)
| CallBlockNumber.

(** The engine together with the requests sent to it so far. *)
Record Node (G : Type) := mkNode {
  engine : G;
  sent : list EngineCall
}.
Arguments mkNode {G}.
Arguments engine {G}.
Arguments sent {G}.

(** Computations that talk to the engine. *)
Definition M (G A : Type) : Type := Node G -> A * Node G.

Definition ret {G A : Type} (a : A) : M G A := fun n => (a, n).

Definition bind {G A B : Type} (m : M G A) (k : A -> M G B) : M G B :=
  fun n => let '(a, n') := m n in k a n'.

Notation "x <- m ;; k" := (bind m (fun x => k))
  (at level 61, m at next level, right associativity).

Section ExecutorCode.
Context {G S : Type} `{L2Client G} `{SyncerReader S} `{WireCodec} `{ExecutorHelpers S}.

Definition authClient_AssembleL2Block (height : Z) (txs : list L1MessageTx)
  : M G (ExecError + ExecutableL2Data) :=
  fun n => (AssembleL2Block (engine n) height txs,
            mkNode (engine n) (sent n ++ [CallAssembleL2Block height txs])).

Definition authClient_ValidateL2Block (blk : ExecutableL2Data)
  : M G (bool * option ExecError) :=
  fun n => (ValidateL2Block (engine n) blk,
            mkNode (engine n) (sent n ++ [CallValidateL2Block blk])).

Definition authClient_NewL2Block (blk : ExecutableL2Data) : M G (option ExecError) :=
  fun n => let '(g, err) := NewL2Block (engine n) blk in
           (err, mkNode g (sent n ++ [CallNewL2Block blk])).

Definition ethClient_BlockNumber : M G (ExecError + Z) :=
  fun n => (BlockNumber (engine n), mkNode (engine n) (sent n ++ [CallBlockNumber])).

(** The four results of [RequestBlockData]. *)
Record BlockData := mkBlockData {
  bd_txs : list Bytes;
  bd_l2Config : option Bytes;
  bd_zkConfig : option Bytes;
  bd_err : option ExecError
}.

Definition RequestBlockData (e : Executor S) (height : Z) : M G BlockData :=
  match syncer e with
  | None => ret (mkBlockData [] None None (Some ErrRequestBlockDataNotAllowed))
  | Some sy =>
      let l1Messages :=
        ReadL1MessagesInRange sy
          (uint64 (latestProcessedL1Index e + 1))
          (uint64 (latestProcessedL1Index e + maxL1MsgNumPerBlock e)) in
      let transactions := map L1Tx l1Messages in
      r <- authClient_AssembleL2Block height transactions ;;
      match r with
      | inl err => ret (mkBlockData [] None None (Some err))
      | inr l2Block =>
          if len (Transactions l2Block) =? 0 then ret (mkBlockData [] None None None)
          else
            let bm := {| bm_ParentHash := ParentHash l2Block;
                         bm_Miner := Miner l2Block;
                         bm_Number := Number l2Block;
                         bm_GasLimit := GasLimit l2Block;
                         bm_BaseFee := BaseFee l2Block;
                         bm_Timestamp := Timestamp l2Block |} in
            match BLS_MarshalBinary bm with
            | inl err => ret (mkBlockData [] None None (Some err))
            | inr l2Config =>
                let nbm := {| nbm_StateRoot := StateRoot l2Block;
                              nbm_GasUsed := GasUsed l2Block;
                              nbm_ReceiptRoot := ReceiptRoot l2Block;
                              nbm_LogsBloom := LogsBloom l2Block;
                              nbm_Extra := Extra l2Block;
                              nbm_L1Messages := l1Messages |} in
                match NonBLS_MarshalBinary nbm with
                | inl err => ret (mkBlockData [] (Some l2Config) None (Some err))
                | inr zkConfig =>
                    ret (mkBlockData (Transactions l2Block) (Some l2Config) (Some zkConfig) None)
                end
            end
      end
  end.

(** The block handed to the engine by [CheckBlockData] and [DeliverBlock]. *)
Definition executableL2Data (bm : BLSMessage) (nbm : NonBLSMessage) (txs : list Bytes)
  : ExecutableL2Data :=
  {| ParentHash := bm_ParentHash bm;
     Miner := bm_Miner bm;
     Number := bm_Number bm;
     GasLimit := bm_GasLimit bm;
     BaseFee := bm_BaseFee bm;
     Timestamp := bm_Timestamp bm;
     Transactions := txs;
     StateRoot := nbm_StateRoot nbm;
     GasUsed := nbm_GasUsed nbm;
     ReceiptRoot := nbm_ReceiptRoot nbm;
     LogsBloom := nbm_LogsBloom nbm;
     Extra := nbm_Extra nbm |}.

(** [len(txs) == 0 || l2Config == nil || zkConfig == nil] *)
Definition emptyInput (txs : list Bytes) (l2Config zkConfig : option Bytes) : bool :=
  (len txs =? 0)
  || match l2Config with None => true | Some _ => false end
  || match zkConfig with None => true | Some _ => false end.

(** The bytes of a slice, a nil slice having none. *)
Definition bytesOf (b : option Bytes) : Bytes :=
  match b with Some x => x | None => [] end.

Definition CheckBlockData (e : Executor S) (txs : list Bytes)
    (l2Config zkConfig : option Bytes) : M G (bool * option ExecError) :=
  match syncer e with
  | None => ret (false, Some ErrCheckBlockDataNotAllowed)
  | Some _ =>
      if emptyInput txs l2Config zkConfig then ret (false, None)
      else
        match BLS_UnmarshalBinary (bytesOf zkConfig) with
        | inl err => ret (false, Some err)
        | inr bm =>
            match NonBLS_UnmarshalBinary (bytesOf l2Config) with
            | inl err => ret (false, Some err)
            | inr nbm =>
                match validateL1Messages e txs nbm with
                | Some err => ret (false, Some err)
                | None => authClient_ValidateL2Block (executableL2Data bm nbm txs)
                end
            end
        end
  end.

Definition DeliverBlock (e : Executor S) (txs : list Bytes)
    (l2Config zkConfig : option Bytes)
    (validators : list Address) (blsSignatures : list Bytes)
  : M G (Executor S * (Z * option ExecError)) :=
  r <- ethClient_BlockNumber ;;
  match r with
  | inl err => ret (e, (0, Some err))
  | inr height =>
      let currentBlockNumber := int64 height in
      if emptyInput txs l2Config zkConfig then ret (e, (currentBlockNumber, None))
      else
        match BLS_UnmarshalBinary (bytesOf zkConfig) with
        | inl err => ret (e, (currentBlockNumber, Some err))
        | inr bm =>
            match NonBLS_UnmarshalBinary (bytesOf l2Config) with
            | inl err => ret (e, (currentBlockNumber, Some err))
            | inr nbm =>
                if negb (uint64 (height + 1) =? bm_Number bm)
                then ret (e, (currentBlockNumber, Some ErrWrongBlockNumber))
                else
                  err <- authClient_NewL2Block (executableL2Data bm nbm txs) ;;
                  match err with
                  | Some err => ret (e, (currentBlockNumber, Some err))
                  | None =>
                      let '(e', _) := updateLatestProcessedL1Index e txs in
                      ret (e', (currentBlockNumber, None))
                  end
            end
        end
  end.

End ExecutorCode.

(** ** The wire encodings *)

Definition byte_of (z : Z) : byte :=
  match Byte.of_N (Z.to_N (z mod 256)) with Some b => b | None => x00 end.

(** [z] on [width] bytes, big-endian, high bytes beyond the width dropped. *)
Fixpoint be_bytes (width : nat) (z : Z) : Bytes :=
  match width with
  | O => []
  | Datatypes.S w => be_bytes w (z / 256) ++ [byte_of z]
  end.

(** A byte array of exactly [width] bytes. *)
Definition fixed (width : nat) (b : Bytes) : Bytes :=
  firstn width (b ++ repeat x00 width).

Definition Parser (A : Type) : Type := Bytes -> option (A * Bytes).

Definition pret {A : Type} (a : A) : Parser A := fun b => Some (a, b).

Definition pbind {A B : Type} (p : Parser A) (k : A -> Parser B) : Parser B :=
  fun b => match p b with Some (a, rest) => k a rest | None => None end.

Notation "x <~ p ;; k" := (pbind p (fun x => k))
  (at level 61, p at next level, right associativity).

Definition take (n : nat) : Parser Bytes :=
  fun b => if (n <=? length b)%nat then Some (firstn n b, skipn n b) else None.

Definition take_uint (width : nat) : Parser Z :=
  raw <~ take width ;; pret (SetBytes raw).

Fixpoint times {A : Type} (n : nat) (p : Parser A) : Parser (list A) :=
  match n with
  | O => pret []
  | Datatypes.S k => x <~ p ;; xs <~ times k p ;; pret (x :: xs)
  end.

(** The input must be used up. *)
Definition complete {A : Type} (p : Parser A) (b : Bytes) : option A :=
  match p b with Some (a, []) => Some a | _ => None end.

Module Wire.

(** Modelled from the spec: [MarshalBinary] and [UnmarshalBinary] of
    [types.BLSMessage] and [types.NonBLSMessage] belong to the [types]
    package, which is not at hand.  The spec makes [headerBytes] and
    [payloadBytes] each a fixed-field binary encoding of the entity's
    fields in their listed order, not self-describing: every field is
    written at its width, a byte string after its 8-byte length, the
    message list after its 8-byte count. *)
Definition marshalBLS (bm : BLSMessage) : Bytes :=
  fixed 32 (bm_ParentHash bm) ++ fixed 20 (bm_Miner bm)
  ++ be_bytes 8 (bm_Number bm) ++ be_bytes 8 (bm_GasLimit bm)
  ++ be_bytes 32 (bm_BaseFee bm) ++ be_bytes 8 (bm_Timestamp bm).

Definition parseBLS : Parser BLSMessage :=
  parentHash <~ take 32 ;; miner <~ take 20 ;;
  number <~ take_uint 8 ;; gasLimit <~ take_uint 8 ;;
  baseFee <~ take_uint 32 ;; timestamp <~ take_uint 8 ;;
  pret (mkBLSMessage parentHash miner number gasLimit baseFee timestamp).

Definition marshalL1Message (m : L1Message) : Bytes :=
  be_bytes 8 (QueueIndex (L1Tx m)) ++ be_bytes 8 (Gas (L1Tx m))
  ++ match To (L1Tx m) with
     | Some a => [x01] ++ fixed 20 a
     | None => [x00] ++ fixed 20 []
     end
  ++ be_bytes 32 (Value (L1Tx m))
  ++ be_bytes 8 (len (Data (L1Tx m))) ++ Data (L1Tx m)
  ++ fixed 20 (Sender (L1Tx m))
  ++ be_bytes 8 (L1Height m) ++ fixed 32 (L1TxHash m).

Definition parseL1Message : Parser L1Message :=
  queueIndex <~ take_uint 8 ;; gas <~ take_uint 8 ;;
  hasTo <~ take_uint 1 ;; to <~ take 20 ;;
  value <~ take_uint 32 ;;
  dataLen <~ take_uint 8 ;; data <~ take (Z.to_nat dataLen) ;;
  sender <~ take 20 ;;
  l1Height <~ take_uint 8 ;; l1TxHash <~ take 32 ;;
  pret (mkL1Message
          (mkL1MessageTx queueIndex gas (if hasTo =? 0 then None else Some to)
                         value data sender)
          l1Height l1TxHash).

Definition marshalNonBLS (nbm : NonBLSMessage) : Bytes :=
  fixed 32 (nbm_StateRoot nbm) ++ be_bytes 8 (nbm_GasUsed nbm)
  ++ fixed 32 (nbm_ReceiptRoot nbm) ++ fixed 256 (nbm_LogsBloom nbm)
  ++ be_bytes 8 (len (nbm_Extra nbm)) ++ nbm_Extra nbm
  ++ be_bytes 8 (len (nbm_L1Messages nbm))
  ++ concat (map marshalL1Message (nbm_L1Messages nbm)).

Definition parseNonBLS : Parser NonBLSMessage :=
  stateRoot <~ take 32 ;; gasUsed <~ take_uint 8 ;;
  receiptRoot <~ take 32 ;; logsBloom <~ take 256 ;;
  extraLen <~ take_uint 8 ;; extra <~ take (Z.to_nat extraLen) ;;
  count <~ take_uint 8 ;; l1Messages <~ times (Z.to_nat count) parseL1Message ;;
  pret (mkNonBLSMessage stateRoot gasUsed receiptRoot logsBloom extra l1Messages).

Definition unmarshal {A : Type} (p : Parser A) (b : Bytes) : ExecError + A :=
  match complete p b with
  | Some a => inr a
  | None => inl (ErrCodec (len b))
  end.

#[global] Instance codec : WireCodec := {
  BLS_MarshalBinary bm := inr (marshalBLS bm);
  BLS_UnmarshalBinary := unmarshal parseBLS;
  NonBLS_MarshalBinary nbm := inr (marshalNonBLS nbm);
  NonBLS_UnmarshalBinary := unmarshal parseNonBLS
}.

End Wire.

(** ** A small engine, queue and helper set to run the executor on *)

Module Bench.

(** An engine that keeps its height, packs every offered L1 transaction
    as the type byte followed by its queue index, accepts every candidate
    and imports a block by taking its number as the new height. *)
Record Engine := mkEngine { height : Z }.

Definition L1MessageTxType : byte := x7e.

Definition packTx (tx : L1MessageTx) : Bytes :=
  L1MessageTxType :: be_bytes 8 (QueueIndex tx).

Definition assemble (g : Engine) (h : Z) (txs : list L1MessageTx) : ExecutableL2Data :=
  {| ParentHash := zeroHash; Miner := zeroAddress; Number := h;
     GasLimit := 30000000; BaseFee := 1; Timestamp := 1700000000;
     Transactions := map packTx txs;
     StateRoot := zeroHash; GasUsed := 21000 * len txs; ReceiptRoot := zeroHash;
     LogsBloom := repeat x00 256; Extra := [] |}.

#[global] Instance client : L2Client Engine := {
  AssembleL2Block g h txs := inr (assemble g h txs);
  ValidateL2Block g blk := (true, None);
  NewL2Block g blk := (mkEngine (Number blk), None);
  BlockNumber g := inr (height g)
}.

(** The queue as a list, the message of index [i] at position [i - 1]. *)
Definition Queue := list L1Message.

(** Modelled from the spec: [ReadL1MessagesInRange] belongs to the syncer,
    which is not at hand.  The spec has the ranged read return the ordered,
    contiguous messages held in the index range, fewer than asked for when
    the queue ends before the range does. *)
#[global] Instance reader : SyncerReader Queue := {
  ReadL1MessagesInRange q from to := slice (from - 1) (Z.min to (len q)) q
}.

Definition isL1MessageTxType (tx : Bytes) : bool :=
  match tx with b :: _ => Byte.eqb b L1MessageTxType | [] => false end.

(** Modelled from the spec: [updateLatestProcessedL1Index] is declared in a
    file of the package that is not at hand.  The spec has it advance
    [latestProcessedL1Index] by the count of L1 messages of the delivered
    block, and never fail; it is handed [txs], among which the L1 messages
    are the transactions of the L1-message type. *)
Definition countAndAdvance (e : Executor Queue) (txs : list Bytes)
  : Executor Queue * option ExecError :=
  (advanceL1Index e (len (filter isL1MessageTxType txs)), None).

#[global] Instance helpers : ExecutorHelpers Queue := {
  validateL1Messages e txs nbm := None;
  updateLatestProcessedL1Index := countAndAdvance
}.

Definition aliceAddr : Address := repeat x00 19 ++ [xa1].
Definition bobAddr : Address := repeat x00 19 ++ [xb0].

Definition deposit1 : L1Message :=
  mkL1Message (mkL1MessageTx 1 100000 (Some bobAddr) 5 [xca; xfe] aliceAddr)
              17 (repeat x11 32).

Definition sequencer : Executor Queue := mkExecutor 0 100 (Some [deposit1]).
Definition validator : Executor Queue := mkExecutor 0 0 None.

Definition node0 : Node Engine := mkNode (mkEngine 0) [].

(** What the sequencer proposes for height 1 on [node0]. *)
Definition proposal : BlockData := fst (RequestBlockData sequencer 1 node0).

(** The bytes of that proposal in the order [RequestBlockData] returns
    them: the header second, the payload third. *)
Definition proposedTxs : list Bytes := bd_txs proposal.
Definition headerBytes : Bytes := bytesOf (bd_l2Config proposal).
Definition payloadBytes : Bytes := bytesOf (bd_zkConfig proposal).

(** The candidate block behind the proposal and its two halves. *)
Definition block1 : ExecutableL2Data := assemble (mkEngine 0) 1 [L1Tx deposit1].

Definition header1 : BLSMessage :=
  {| bm_ParentHash := ParentHash block1; bm_Miner := Miner block1;
     bm_Number := Number block1; bm_GasLimit := GasLimit block1;
     bm_BaseFee := BaseFee block1; bm_Timestamp := Timestamp block1 |}.

Definition payload1 : NonBLSMessage :=
  {| nbm_StateRoot := StateRoot block1; nbm_GasUsed := GasUsed block1;
     nbm_ReceiptRoot := ReceiptRoot block1; nbm_LogsBloom := LogsBloom block1;
     nbm_Extra := Extra block1; nbm_L1Messages := [deposit1] |}.

(** A node whose engine is already at height 5. *)
Definition node5 : Node Engine := mkNode (mkEngine 5) [].

End Bench.

(** ** Vocabulary of the statements about the decoder *)

(** The second 32-byte word of the log data. *)
Definition opaqueLengthWord (ev : Log) : Z := SetBytes (slice 32 64 (log_Data ev)).

(** The opaque payload the length word delimits. *)
Definition opaqueDataOf (ev : Log) : Bytes :=
  slice 64 (64 + Uint64 (opaqueLengthWord ev)) (log_Data ev).

Definition recipientOf (ev : Log) : Address := BytesToAddress (slice_from 12 (topic ev 2)).


(** The byte at offset 72 of the opaque payload. *)
Definition creationFlag (ev : Log) : Z := byte_val (nth 72 (opaqueDataOf ev) x00).

(** Steps 1 to 4: four topics, the event selector, at least 64 bytes of
    data in whole words, and an offset word equal to 32. *)
Definition headerChecksPass (ev : Log) : bool :=
  (len (log_Topics ev) =? 4)
  && bytes_eqb (topic ev 0) DepositEventABIHash
  && (64 <=? len (log_Data ev))
  && (len (log_Data ev) mod 32 =? 0)
  && (SetBytes (slice 0 32 (log_Data ev)) =? 32).

(** Step 5 as the spec words it, with [D] the data length and [L] the
    length word: [L] fits 64 bits, [L <= D - 64] and [L + 32 > D - 64]. *)
Definition lengthWordOk (ev : Log) : bool :=
  let D := len (log_Data ev) in
  let L := opaqueLengthWord ev in
  (L <=? uint64_max) && (L <=? D - 64) && (D - 64 <? L + 32).

(** A result that comes from behind step 5: a message, or an error of the
    version switch or of the version-0 decode. *)
Definition pastLengthCheck (r : DecodeError + L1MessageTx) : bool :=
  match r with
  | inr _ => true
  | inl (ErrDepositVersion _) => true
  | inl (ErrDecodeDeposit _ _) => true
  | inl _ => false
  end.

(** A version-0 deposit log that passes every check. *)
Definition wellFormedVersion0 (ev : Log) : bool :=
  headerChecksPass ev && lengthWordOk ev
  && bytes_eqb (topic ev 3) DepositEventVersion0
  && (73 <=? opaqueLengthWord ev).

(** ** Vocabulary of the statements about [deriveFromReceipt] *)

(** The elements of a list with their indices, counted from [i]. *)
Fixpoint indexed {A : Type} (i : Z) (l : list A) : list (Z * A) :=
  match l with
  | [] => []
  | x :: rest => (i, x) :: indexed (i + 1) rest
  end.

(** A log the loops hand to the decoder: its receipt succeeded, it was
    emitted by the deposit contract and its first topic is the selector. *)
Definition selected (depositContractAddr : Address) (rec : Receipt) (lg : Log) : bool :=
  (rec_Status rec =? ReceiptStatusSuccessful) && isDepositLog depositContractAddr lg.

(** The selected logs of the receipt of index [i], in log order, each with
    the receipt index and its log index; the logs are counted from [j]. *)
Definition receiptItemsFrom (depositContractAddr : Address) (i : Z) (rec : Receipt)
    (j : Z) (logs : list Log) : list (Z * Z * Log) :=
  flat_map
    (fun jl : Z * Log =>
       if selected depositContractAddr rec (snd jl) then [(i, fst jl, snd jl)] else [])
    (indexed j logs).

Definition receiptItems (depositContractAddr : Address) (i : Z) (rec : Receipt)
  : list (Z * Z * Log) :=
  receiptItemsFrom depositContractAddr i rec 0 (rec_Logs rec).

(** The selected logs of a batch in encounter order: receipt order, then
    log order within a receipt. *)
Definition depositLogs (receipts : list Receipt) (depositContractAddr : Address)
  : list (Z * Z * Log) :=
  flat_map
    (fun ir : Z * Receipt => receiptItems depositContractAddr (fst ir) (snd ir))
    (indexed 0 receipts).

Definition decodes (item : Z * Z * Log) : bool :=
  match UnmarshalDepositLogEvent (snd item) with inr _ => true | inl _ => false end.

(** The messages of the items that decode, in order. *)
Definition decodedMessages (items : list (Z * Z * Log)) : list L1Message :=
  flat_map
    (fun item : Z * Z * Log =>
       match UnmarshalDepositLogEvent (snd item) with
       | inr msg => [mkL1Message msg (log_BlockNumber (snd item)) (log_TxHash (snd item))]
       | inl _ => []
       end)
    items.

(** The failures of the items that do not decode, in order. *)
Definition decodeFailures (items : list (Z * Z * Log)) : list ItemError :=
  flat_map
    (fun item : Z * Z * Log =>
       match UnmarshalDepositLogEvent (snd item) with
       | inr _ => []
       | inl err => [mkItemError (fst (fst item)) (snd (fst item)) err]
       end)
    items.

(** The entries of an aggregated error, a nil error having none. *)
Definition errorsOf (result : option MultiError) : list ItemError :=
  match result with Some m => Errors m | None => [] end.

(** The aggregated error that holds the given entries: nil when there are
    none. *)
Definition aggregate (errs : list ItemError) : option MultiError :=
  match errs with
  | [] => None
  | _ :: _ => Some (mkMultiError errs)
  end.

(** ** Deposit logs as the deposit contract emits them *)

Module Fixture.

(** [abi.encodePacked(mint, value, gasLimit, isCreation, data)]. *)
Definition packOpaque (mint value gasLimit : Z) (isCreation : byte) (data : Bytes) : Bytes :=
  be_bytes 32 mint ++ be_bytes 32 value ++ be_bytes 8 gasLimit ++ [isCreation] ++ data.

(** Zero padding on the right up to the next multiple of 32 bytes. *)
Definition padRight32 (b : Bytes) : Bytes :=
  b ++ repeat x00 (Z.to_nat ((- len b) mod 32)).

(** An indexed address topic: the address in the low 20 of 32 bytes. *)
Definition addressTopic (a : Address) : Hash := repeat x00 12 ++ a.

(** The [TransactionDeposited] log of the given deposit. *)
Definition depositLog (contract from to : Address) (version : Hash) (opaque : Bytes)
    (blockNumber : Z) (txHash : Hash) : Log :=
  mkLog contract
        [DepositEventABIHash; addressTopic from; addressTopic to; version]
        (be_bytes 32 32 ++ be_bytes 32 (len opaque) ++ padRight32 opaque)
        blockNumber txHash.

Definition portal : Address := repeat x00 19 ++ [x07].
Definition alice : Address := repeat x00 19 ++ [xa1].
Definition bob : Address := repeat x00 19 ++ [xb0].
Definition carol : Address := repeat x00 19 ++ [xc0].

(** Alice sends 5 to Bob, minting 9, with two bytes of call data. *)
Definition logA : Log :=
  depositLog portal alice bob zeroHash (packOpaque 9 5 100000 x00 [xca; xfe]) 17 (repeat x11 32).

(** The same deposit from Carol, minting 4. *)
Definition logB : Log :=
  depositLog portal carol bob zeroHash (packOpaque 4 5 100000 x00 [xca; xfe]) 17 (repeat x11 32).

(** A contract creation: the flag byte is 1. *)
Definition logCreate : Log :=
  depositLog portal alice bob zeroHash (packOpaque 0 0 200000 x01 [x60; x00]) 18 (repeat x22 32).

(** [logA] with the offset word set to 64. *)
Definition logBadOffset : Log :=
  mkLog portal (log_Topics logA)
        (be_bytes 32 64 ++ slice_from 32 (log_Data logA)) 19 (repeat x33 32).

(** [logA] with one more padding word than its payload needs. *)
Definition logOverPadded : Log :=
  mkLog portal (log_Topics logA) (log_Data logA ++ repeat x00 32) 19 (repeat x33 32).

(** A log of another contract, and an unrelated event of the portal. *)
Definition logForeign : Log :=
  mkLog bob (log_Topics logA) (log_Data logA) 17 (repeat x11 32).
Definition logOtherEvent : Log :=
  mkLog portal [repeat xee 32] [] 17 (repeat x11 32).

(** A batch: a successful receipt with four portal logs of which one is
    malformed, among logs that are not deposits, and a failed receipt. *)
Definition batch : list Receipt :=
  [ mkReceipt ReceiptStatusSuccessful [logForeign; logA; logBadOffset; logOtherEvent];
    mkReceipt ReceiptStatusFailed [logA; logB];
    mkReceipt ReceiptStatusSuccessful [logB; logCreate] ].

End Fixture.

(** ** The filter in the words of its description *)

(** A log [lg] of a receipt [rec] passes the filter when the receipt has
    the successful status, the log was emitted by the deposit contract, and
    the log has a first topic, which is the deposit event selector. *)
Definition passesFilter (depositContractAddr : Address) (rec : Receipt) (lg : Log) : Prop :=
  rec_Status rec = ReceiptStatusSuccessful
  /\ log_Address lg = depositContractAddr
  /\ hd_error (log_Topics lg) = Some DepositEventABIHash.

(** The same three conditions as a test. *)
Definition passesFilterb (depositContractAddr : Address) (rec : Receipt) (lg : Log) : bool :=
  (rec_Status rec =? ReceiptStatusSuccessful)
  && bytes_eqb (log_Address lg) depositContractAddr
  && match log_Topics lg with
     | t :: _ => bytes_eqb t DepositEventABIHash
     | [] => false
     end.

(** The logs of a batch that pass the filter. *)
Definition filteredLogs (receipts : list Receipt) (depositContractAddr : Address)
  : list Log :=
  flat_map (fun rec => filter (passesFilterb depositContractAddr rec) (rec_Logs rec))
           receipts.

(** ** A payload that records no L1 message *)

Module BenchDeliver.



End BenchDeliver.

(** ** Further vocabulary and sample logs *)

(** A failure entry with its receipt index moved on by [k]. *)
Definition shiftReceipt (k : Z) (e : ItemError) : ItemError :=
  mkItemError (item_receipt e + k) (item_log e) (item_cause e).

Module Sample.

(** A deposit that announces version 1. *)
Definition logVersion1 : Log :=
  Fixture.depositLog Fixture.portal Fixture.alice Fixture.bob
    (repeat x00 31 ++ [x01])
    (Fixture.packOpaque 9 5 100000 x00 [xca; xfe]) 20 (repeat x44 32).

(** A version-0 log whose payload stops after 40 bytes. *)
Definition logShortPayload : Log :=
  Fixture.depositLog Fixture.portal Fixture.alice Fixture.bob zeroHash
    (be_bytes 32 9 ++ be_bytes 8 1) 21 (repeat x55 32).

(** [Fixture.logA] with its padding bytes set to [0xff]. *)
Definition logDirtyPadding : Log :=
  mkLog Fixture.portal (log_Topics Fixture.logA)
        (slice 0 (64 + 75) (log_Data Fixture.logA) ++ repeat xff 21)
        17 (repeat x11 32).

End Sample.

(** ** The halves of a candidate block *)

(** The [BLSMessage] that [RequestBlockData] fills from a block. *)
Definition headerOf (l2Block : ExecutableL2Data) : BLSMessage :=
  {| bm_ParentHash := ParentHash l2Block;
     bm_Miner := Miner l2Block;
     bm_Number := Number l2Block;
     bm_GasLimit := GasLimit l2Block;
     bm_BaseFee := BaseFee l2Block;
     bm_Timestamp := Timestamp l2Block |}.

(** The [NonBLSMessage] that [RequestBlockData] fills from a block and the
    L1 messages it read. *)
Definition payloadOf (l2Block : ExecutableL2Data) (l1Messages : list L1Message)
  : NonBLSMessage :=
  {| nbm_StateRoot := StateRoot l2Block;
     nbm_GasUsed := GasUsed l2Block;
     nbm_ReceiptRoot := ReceiptRoot l2Block;
     nbm_LogsBloom := LogsBloom l2Block;
     nbm_Extra := Extra l2Block;
     nbm_L1Messages := l1Messages |}.

(** The messages [RequestBlockData] reads for an executor with syncer [sy]. *)
Definition pendingL1Messages {S : Type} `{SyncerReader S} (e : Executor S) (sy : S)
  : list L1Message :=
  ReadL1MessagesInRange sy
    (uint64 (latestProcessedL1Index e + 1))
    (uint64 (latestProcessedL1Index e + maxL1MsgNumPerBlock e)).

(** ** The constructors of the executor *)

(** A Go [string], as its bytes. *)
Definition GoString := list byte.

(** [types.L2Config]; [JwtSecret] is a [[32]byte]. *)
Record L2Config := mkL2Config {
  EthAddr : GoString;
  EngineAddr : GoString;
  JwtSecret : Bytes
}.

(** What [SetCliContext] makes of the logger: the JSON or the plain
    writer, filtered by a level or not. *)
Record LoggerSpec := mkLoggerSpec {
  log_json : bool;
  log_level : option GoString
}.

(** The node's [Config]. *)
Record Config := mkConfig {
  L2 : L2Config;
  L2CrossDomainMessengerAddress : Address;
  MaxL1MessageNumPerBlock : Z;
  Logger : LoggerSpec
}.

(** Dialling the two endpoints of the engine: nil, or the error. *)
Class Dialer := {
  authclient_DialContext : list byte -> Bytes -> option ExecError;
  ethclient_Dial : list byte -> option ExecError
}.

Inductive ConstructError : Type :=
| ErrSyncerRequired
| ErrDial (err : ExecError).

Definition NewSequencerExecutor {S : Type} `{Dialer} (config : Config) (syncer : option S)
  : ConstructError + Executor S :=
  match syncer with
  | None => inl ErrSyncerRequired
  | Some sy =>
      match authclient_DialContext (EngineAddr (L2 config)) (JwtSecret (L2 config)) with
      | Some err => inl (ErrDial err)
      | None =>
          match ethclient_Dial (EthAddr (L2 config)) with
          | Some err => inl (ErrDial err)
          | None =>
              let latestProcessedL1Index := 0 in
              inr (mkExecutor latestProcessedL1Index (MaxL1MessageNumPerBlock config)
                              (Some sy))
          end
      end
  end.

(** The fields left out of the literal keep Go's zero values. *)
Definition NewExecutor {S : Type} `{Dialer} (config : Config)
  : ConstructError + Executor S :=
  match authclient_DialContext (EngineAddr (L2 config)) (JwtSecret (L2 config)) with
  | Some err => inl (ErrDial err)
  | None =>
      match ethclient_Dial (EthAddr (L2 config)) with
      | Some err => inl (ErrDial err)
      | None => inr (mkExecutor 0 0 None)
      end
  end.

Module BenchSetup.

(** Endpoints that always answer. *)
#[global] Instance dialer : Dialer := {
  authclient_DialContext addr secret := None;
  ethclient_Dial addr := None
}.

Definition config : Config :=
  mkConfig (mkL2Config [] [] (repeat x00 32)) zeroAddress 100 (mkLoggerSpec false None).

(** A sequencer whose queue holds nothing yet. *)
Definition idleSequencer : Executor Bench.Queue := mkExecutor 0 100 (Some []).

End BenchSetup.

(** ** Configuration from the command line *)

(** The flags a [cli.Context] answers for: a flag read behind
    [GlobalIsSet] is [None] when it is not set. *)
Record CliContext := mkCliContext {
  cli_LogFormat : GoString;
  cli_LogLevel : option GoString;
  cli_L2EthAddr : GoString;
  cli_L2EngineAddr : GoString;
  cli_L2EngineJWTSecret : GoString;
  cli_MaxL1MessageNumPerBlock : option Z;
  cli_L2CrossDomainMessengerContractAddr : option GoString;
  cli_L1NodeAddr : GoString;
  cli_L1Confirmations : option Z;
  cli_ZKEvmContractAddress : option GoString;
  cli_DerivationStartHeight : option Z;
  cli_DerivationPollInterval : option Z;
  cli_DerivationLogProgressInterval : option Z;
  cli_DerivationFetchBlockRange : option Z
}.

(** The library functions [SetCliContext] calls. *)
Class ConfigEnv := {
  FinalizedBlockNumber : Z;
  LogFormatJSON : GoString;
  AllowLevel : GoString -> bool;
  TrimSpace : GoString -> GoString;
  FromHex : GoString -> Bytes;
  hexutil_Encode : Bytes -> GoString
}.

(** [common.HexToAddress]. *)
Definition HexToAddress `{ConfigEnv} (s : GoString) : Address := BytesToAddress (FromHex s).

(** The files and the random source of the process: what [os.ReadFile]
    returns for a name, none standing for any error; the bytes
    [rand.Reader] has to give, none when reading it fails, of which
    [io.ReadFull] takes the first 32 and fails on fewer; and the names
    [os.WriteFile] can write. *)
Record Os := mkOs {
  ReadFile : GoString -> option GoString;
  entropy : option Bytes;
  writable : GoString -> bool
}.

(** [os.WriteFile]: the file then reads back as written. *)
Definition WriteFile (os : Os) (name data : GoString) : option Os :=
  if writable os name
  then Some (mkOs (fun f => if bytes_eqb f name then Some data else ReadFile os f)
                  (entropy os) (writable os))
  else None.

Inductive ConfigError : Type :=
| ErrLogLevel (level : GoString)
| ErrJwtFileNameEmpty
| ErrJwtSecretInvalid (fileName : GoString)
| ErrJwtSecretGenerate
| ErrJwtSecretWrite
| ErrMaxL1MessageNumZero
| ErrInvalidSyncDepositContractAddr
| ErrInvalidDerivationDepositContractAddr
| ErrInvalidDerivationStartHeight
| ErrInvalidPollInterval
| ErrInvalidLogProgressInterval
| ErrInvalidFetchBlockRange.

(** The node's [DefaultConfig]. *)
Definition DefaultConfig : Config :=
  {| L2 := mkL2Config [] [] (repeat x00 32);
     Logger := mkLoggerSpec false None;
     MaxL1MessageNumPerBlock := 100;
     L2CrossDomainMessengerAddress := [x42] ++ repeat x00 18 ++ [x07] |}.

(** The node's [SetCliContext]: the configuration and the files as the
    call leaves them, and its error. *)
Definition SetCliContext `{ConfigEnv} (c : Config) (ctx : CliContext) (os : Os)
  : Config * Os * option ConfigError :=
  let logger := mkLoggerSpec false None in
  let logger :=
    if (0 <? len (cli_LogFormat ctx)) && bytes_eqb (cli_LogFormat ctx) LogFormatJSON
    then mkLoggerSpec true None else logger in
  match
    match cli_LogLevel ctx with
    | Some logLevel =>
        if AllowLevel logLevel
        then inr (mkLoggerSpec (log_json logger) (Some logLevel))
        else inl (ErrLogLevel logLevel)
    | None => inr logger
    end
  with
  | inl err => (c, os, Some err)
  | inr logger =>
      let c := mkConfig (L2 c) (L2CrossDomainMessengerAddress c)
                        (MaxL1MessageNumPerBlock c) logger in
      let l2EthAddr := cli_L2EthAddr ctx in
      let l2EngineAddr := cli_L2EngineAddr ctx in
      let fileName := TrimSpace (cli_L2EngineJWTSecret ctx) in
      if bytes_eqb fileName [] then (c, os, Some ErrJwtFileNameEmpty)
      else
        match
          match ReadFile os fileName with
          | Some data =>
              let jwtSecret := FromHex (TrimSpace data) in
              if negb (len jwtSecret =? 32) then inl (ErrJwtSecretInvalid fileName)
              else inr (jwtSecret, os)
          | None =>
              match entropy os with
              | None => inl ErrJwtSecretGenerate
              | Some random =>
                  if len random <? 32 then inl ErrJwtSecretGenerate
                  else
                    let secret := slice 0 32 random in
                    match WriteFile os fileName (hexutil_Encode secret) with
                    | None => inl ErrJwtSecretWrite
                    | Some os' => inr (secret, os')
                    end
              end
          end
        with
        | inl err => (c, os, Some err)
        | inr (secret, os) =>
            let c := mkConfig (mkL2Config l2EthAddr l2EngineAddr secret)
                              (L2CrossDomainMessengerAddress c)
                              (MaxL1MessageNumPerBlock c) (Logger c) in
            match
              match cli_MaxL1MessageNumPerBlock ctx with
              | Some v =>
                  let c := mkConfig (L2 c) (L2CrossDomainMessengerAddress c) v (Logger c) in
                  if v =? 0 then inl (c, ErrMaxL1MessageNumZero) else inr c
              | None => inr c
              end
            with
            | inl (c, err) => (c, os, Some err)
            | inr c =>
                match cli_L2CrossDomainMessengerContractAddr ctx with
                | Some s =>
                    let addr := HexToAddress s in
                    let c := mkConfig (L2 c) addr (MaxL1MessageNumPerBlock c) (Logger c) in
                    if len (L2CrossDomainMessengerAddress c) =? 0
                    then (c, os, Some ErrInvalidSyncDepositContractAddr)
                    else (c, os, None)
                | None => (c, os, None)
                end
            end
        end
  end.

(** ** The configuration of the derivation package *)

Module Derivation.

(** [DefaultFetchBlockRange], and the two intervals in nanoseconds. *)
Definition DefaultFetchBlockRange : Z := 100.
Definition DefaultPollInterval : Z := 1000000000 * 15.
Definition DefaultLogProgressInterval : Z := 1000000000 * 10.

Record L1Config := mkL1Config {
  Addr : GoString;
  Confirmations : Z
}.

Record Config := mkConfig {
  L1 : L1Config;
  L2 : L2Config;
  ZKEvmContractAddress : option Address;
  StartHeight : Z;
  PollInterval : Z;
  LogProgressInterval : Z;
  FetchBlockRange : Z
}.

Definition DefaultConfig `{ConfigEnv} : Config :=
  {| L1 := mkL1Config [] FinalizedBlockNumber;
     PollInterval := DefaultPollInterval;
     LogProgressInterval := DefaultLogProgressInterval;
     FetchBlockRange := DefaultFetchBlockRange;
     L2 := mkL2Config [] [] (repeat x00 32);
     ZKEvmContractAddress := None;
     StartHeight := 0 |}.

(** A step of [SetCliContext]: the configuration as the step leaves it,
    with the error when the step returns one. *)
Definition Step : Type := (Config * ConfigError) + Config.

Definition andThen (s : Step) (k : Config -> Step) : Step :=
  match s with
  | inl stopped => inl stopped
  | inr c => k c
  end.

Notation "c <-- s ;;; k" := (andThen s (fun c => k))
  (at level 61, s at next level, right associativity).

Definition SetCliContext `{ConfigEnv} (c : Config) (ctx : CliContext) (os : Os)
  : Config * Os * option ConfigError :=
  let c := mkConfig (mkL1Config (cli_L1NodeAddr ctx) (Confirmations (L1 c))) (L2 c)
                    (ZKEvmContractAddress c) (StartHeight c) (PollInterval c)
                    (LogProgressInterval c) (FetchBlockRange c) in
  let c :=
    match cli_L1Confirmations ctx with
    | Some v => mkConfig (mkL1Config (Addr (L1 c)) v) (L2 c)
                         (ZKEvmContractAddress c) (StartHeight c) (PollInterval c)
                         (LogProgressInterval c) (FetchBlockRange c)
    | None => c
    end in
  let flags : Step :=
    c <-- match cli_ZKEvmContractAddress ctx with
          | Some s =>
              let addr := HexToAddress s in
              let c := mkConfig (L1 c) (L2 c) (Some addr) (StartHeight c) (PollInterval c)
                                (LogProgressInterval c) (FetchBlockRange c) in
              if len addr =? 0 then inl (c, ErrInvalidDerivationDepositContractAddr)
              else inr c
          | None => inr c
          end ;;;
    c <-- match cli_DerivationStartHeight ctx with
          | Some v =>
              let c := mkConfig (L1 c) (L2 c) (ZKEvmContractAddress c) v (PollInterval c)
                                (LogProgressInterval c) (FetchBlockRange c) in
              if v =? 0 then inl (c, ErrInvalidDerivationStartHeight) else inr c
          | None => inr c
          end ;;;
    c <-- match cli_DerivationPollInterval ctx with
          | Some v =>
              let c := mkConfig (L1 c) (L2 c) (ZKEvmContractAddress c) (StartHeight c) v
                                (LogProgressInterval c) (FetchBlockRange c) in
              if v =? 0 then inl (c, ErrInvalidPollInterval) else inr c
          | None => inr c
          end ;;;
    c <-- match cli_DerivationLogProgressInterval ctx with
          | Some v =>
              let c := mkConfig (L1 c) (L2 c) (ZKEvmContractAddress c) (StartHeight c)
                                (PollInterval c) v (FetchBlockRange c) in
              if v =? 0 then inl (c, ErrInvalidLogProgressInterval) else inr c
          | None => inr c
          end ;;;
    match cli_DerivationFetchBlockRange ctx with
    | Some v =>
        let c := mkConfig (L1 c) (L2 c) (ZKEvmContractAddress c) (StartHeight c)
                          (PollInterval c) (LogProgressInterval c) v in
        if v =? 0 then inl (c, ErrInvalidFetchBlockRange) else inr c
    | None => inr c
    end in
  match flags with
  | inl (c, err) => (c, os, Some err)
  | inr c =>
      let l2EthAddr := cli_L2EthAddr ctx in
      let l2EngineAddr := cli_L2EngineAddr ctx in
      let fileName := TrimSpace (cli_L2EngineJWTSecret ctx) in
      if bytes_eqb fileName [] then (c, os, Some ErrJwtFileNameEmpty)
      else
        match
          match ReadFile os fileName with
          | Some data =>
              let jwtSecret := FromHex (TrimSpace data) in
              if negb (len jwtSecret =? 32) then inl (ErrJwtSecretInvalid fileName)
              else inr (jwtSecret, os)
          | None =>
              match entropy os with
              | None => inl ErrJwtSecretGenerate
              | Some random =>
                  if len random <? 32 then inl ErrJwtSecretGenerate
                  else
                    let secret := slice 0 32 random in
                    match WriteFile os fileName (hexutil_Encode secret) with
                    | None => inl ErrJwtSecretWrite
                    | Some os' => inr (secret, os')
                    end
              end
          end
        with
        | inl err => (c, os, Some err)
        | inr (secret, os) =>
            (mkConfig (L1 c) (mkL2Config l2EthAddr l2EngineAddr secret)
                      (ZKEvmContractAddress c) (StartHeight c) (PollInterval c)
                      (LogProgressInterval c) (FetchBlockRange c),
             os, None)
        end
  end.

End Derivation.

(** ** A process to run the configuration on *)

Module BenchConfig.

(** Library functions that leave their argument as it is; every level is
    allowed. *)
#[global] Instance env : ConfigEnv := {
  FinalizedBlockNumber := -3;
  LogFormatJSON := [x6a; x73; x6f; x6e];
  AllowLevel level := true;
  TrimSpace s := s;
  FromHex s := s;
  hexutil_Encode b := b
}.

(** No file yet, 32 random bytes at hand, every name writable. *)
Definition freshOs : Os := mkOs (fun _ => None) (Some (repeat xab 32)) (fun _ => true).

Definition jwtPath : GoString := [x6a; x77; x74].

(** No flag but the secret's file name. *)
Definition plainCtx : CliContext :=
  mkCliContext [] None [] [] jwtPath None None [] None None None None None None.

(** The bound on L1 messages set to 0. *)
Definition zeroMaxCtx : CliContext :=
  mkCliContext [] None [] [] jwtPath (Some 0) None [] None None None None None None.

(** What the default configurations and the files become under
    [plainCtx]. *)
Definition nodeConfigAfter : Config := fst (fst (SetCliContext DefaultConfig plainCtx freshOs)).
Definition osAfter : Os := snd (fst (SetCliContext DefaultConfig plainCtx freshOs)).
Definition derivationConfigAfter : Derivation.Config :=
  fst (fst (Derivation.SetCliContext Derivation.DefaultConfig plainCtx freshOs)).

(** The sequencer built from [nodeConfigAfter] over the queue of the bench. *)
Definition firstSequencer : Executor Bench.Queue :=
  mkExecutor 0 100 (Some [Bench.deposit1]).

End BenchConfig.

(** A Go slice: its length is a non-negative [int]. *)
Definition max_int : Z := 2 ^ 63 - 1.
Definition goSlice {A : Type} (s : list A) : Prop := len s <= max_int.

(** * Properties of the decoder *)

(** ** Bytes and integers *)

Lemma pow2_64 : 2 ^ 64 = 18446744073709551616.
Proof. reflexivity. Qed.

Lemma pow2_63 : 2 ^ 63 = 9223372036854775808.
Proof. reflexivity. Qed.

Ltac unfold_ints :=
  unfold IsUint64, Uint64, uint64, int64, uint64_max, max_int, goSlice in *;
  rewrite ?pow2_64, ?pow2_63 in *.

Lemma len_nonneg {A : Type} (s : list A) : 0 <= len s.
Proof. unfold len. lia. Qed.

Lemma len_cons {A : Type} (x : A) (s : list A) : len (x :: s) = len s + 1.
Proof. unfold len. cbn [length]. lia. Qed.

Lemma len_app {A : Type} (s t : list A) : len (s ++ t) = len s + len t.
Proof. unfold len. rewrite length_app. lia. Qed.

Lemma byte_val_range (b : byte) : 0 <= byte_val b < 256.
Proof.
  unfold byte_val. pose proof (Byte.to_N_bounded b). lia.
Qed.

Lemma bytes_eqb_eq (a b : Bytes) : bytes_eqb a b = true <-> a = b.
Proof.
  unfold bytes_eqb. destruct (list_eq_dec Byte.byte_eq_dec a b); split; congruence.
Qed.

Lemma bytes_eqb_refl (a : Bytes) : bytes_eqb a a = true.
Proof. now apply bytes_eqb_eq. Qed.

Lemma fold_SetBytes_bound (b : Bytes) :
  forall acc, 0 <= acc ->
    acc * 256 ^ len b
    <= fold_left (fun a x => a * 256 + byte_val x) b acc
    < (acc + 1) * 256 ^ len b.
Proof.
  induction b as [|x b IH]; intros acc Hacc.
  - cbn. lia.
  - cbn [fold_left]. rewrite len_cons.
    rewrite Z.pow_add_r by (try apply len_nonneg; lia).
    pose proof (byte_val_range x) as Hx.
    specialize (IH (acc * 256 + byte_val x) ltac:(lia)).
    assert (0 < 256 ^ len b) by (apply Z.pow_pos_nonneg; [lia | apply len_nonneg]).
    change (256 ^ 1) with 256. nia.
Qed.

Lemma SetBytes_bound (b : Bytes) : 0 <= SetBytes b < 256 ^ len b.
Proof.
  unfold SetBytes. pose proof (fold_SetBytes_bound b 0 ltac:(lia)). lia.
Qed.

Lemma len_slice_le {A : Type} (lo hi : Z) (s : list A) :
  0 <= hi - lo -> len (slice lo hi s) <= hi - lo.
Proof.
  intros Hw. unfold slice, len.
  pose proof (firstn_le_length (Z.to_nat (hi - lo)) (skipn (Z.to_nat lo) s)). lia.
Qed.

Lemma len_slice {A : Type} (lo hi : Z) (s : list A) :
  0 <= lo -> lo <= hi -> hi <= len s -> len (slice lo hi s) = hi - lo.
Proof.
  intros Hlo Hhi Hlen. unfold slice, len in *.
  rewrite length_firstn, length_skipn. lia.
Qed.

Lemma slice_to_end {A : Type} (lo : Z) (s : list A) :
  0 <= lo -> slice lo (len s) s = slice_from lo s.
Proof.
  intros Hlo. unfold slice, slice_from, len.
  apply firstn_all2. rewrite length_skipn. lia.
Qed.

(** Eight bytes always fit 64 bits. *)
Lemma eight_bytes_IsUint64 (lo : Z) (s : Bytes) :
  IsUint64 (SetBytes (slice lo (lo + 8) s)) = true.
Proof.
  pose proof (SetBytes_bound (slice lo (lo + 8) s)) as [H0 H1].
  pose proof (len_slice_le lo (lo + 8) s ltac:(lia)) as Hl.
  replace (lo + 8 - lo) with 8 in Hl by lia.
  assert (256 ^ len (slice lo (lo + 8) s) <= 256 ^ 8)
    by (apply Z.pow_le_mono_r; lia).
  change (256 ^ 8) with 18446744073709551616 in *.
  unfold_ints. apply andb_true_intro. split; apply Z.leb_le; lia.
Qed.

(** The test of step 5 is the negation of the three conditions. *)
Lemma length_test_spec (D L : Z) :
  64 <= D <= max_int -> 0 <= L ->
  negb (IsUint64 L)
  || (uint64 (D - 64) <? Uint64 L)
  || (uint64 (Uint64 L + 32) <=? uint64 (D - 64))
  = negb ((L <=? uint64_max) && (L <=? D - 64) && (D - 64 <? L + 32)).
Proof.
  intros HD HL. unfold_ints.
  rewrite (Z.mod_small (D - 64)) by lia.
  destruct (Z.leb_spec L (18446744073709551616 - 1)) as [Hfit|Hbig].
  - rewrite (Z.mod_small L) by lia.
    replace (0 <=? L) with true by (symmetry; apply Z.leb_le; lia).
    cbn [andb negb orb].
    destruct (Z.leb_spec L (D - 64)) as [Hle|Hgt].
    + rewrite (Z.mod_small (L + 32)) by lia.
      replace (D - 64 <? L) with false by (symmetry; apply Z.ltb_ge; lia).
      cbn [andb orb].
      destruct (Z.leb_spec (L + 32) (D - 64)), (Z.ltb_spec (D - 64) (L + 32));
        cbn; try reflexivity; lia.
    + replace (D - 64 <? L) with true by (symmetry; apply Z.ltb_lt; lia).
      reflexivity.
  - rewrite andb_false_r. reflexivity.
Qed.

(** ** [unmarshalDepositVersion0] in closed form *)

(** The two outcomes of the version-0 decode, the gas test resolved. *)
Lemma unmarshalDepositVersion0_unfold (to : Address) (opaqueData : Bytes) :
  unmarshalDepositVersion0 to opaqueData =
  if len opaqueData <? 73 then inl (ErrOpaqueDataLength (len opaqueData))
  else inr {| QueueIndex := 0;
              Gas := SetBytes (slice 64 72 opaqueData);
              To := if byte_val (nth 72 opaqueData x00) =? 0 then Some to else None;
              Value := SetBytes (slice 32 64 opaqueData);
              Data := slice 73 (uint64 (73 + uint64 (uint64 (len opaqueData) - 73)))
                            opaqueData;
              Sender := zeroAddress |}.
Proof.
  unfold unmarshalDepositVersion0.
  change (32 + 32 + 8 + 1) with 73.
  destruct (Z.ltb_spec (len opaqueData) 73) as [Hshort|Hlong]; [reflexivity|].
  cbv zeta.
  change (0 + 32) with 32. change (32 + 32) with 64. change (64 + 8) with 72.
  change (72 + 1) with 73. change (Z.to_nat 72) with 72%nat.
  pose proof (eight_bytes_IsUint64 64 opaqueData) as Hu.
  change (64 + 8) with 72 in Hu.
  rewrite Hu. cbn [negb].
  assert (Hg : Uint64 (SetBytes (slice 64 72 opaqueData)) = SetBytes (slice 64 72 opaqueData)).
  { unfold IsUint64 in Hu. apply andb_prop in Hu as [Hlo Hu].
    apply Z.leb_le in Hu. apply Z.leb_le in Hlo.
    unfold_ints. apply Z.mod_small. lia. }
  rewrite Hg. reflexivity.
Qed.

(** The call data is the rest of the payload behind its 73 fixed bytes. *)
Lemma unmarshalDepositVersion0_eq (to : Address) (opaqueData : Bytes) :
  len opaqueData <= uint64_max ->
  unmarshalDepositVersion0 to opaqueData =
  if len opaqueData <? 73 then inl (ErrOpaqueDataLength (len opaqueData))
  else inr {| QueueIndex := 0;
              Gas := SetBytes (slice 64 72 opaqueData);
              To := if byte_val (nth 72 opaqueData x00) =? 0 then Some to else None;
              Value := SetBytes (slice 32 64 opaqueData);
              Data := slice_from 73 opaqueData;
              Sender := zeroAddress |}.
Proof.
  intros Hfit. rewrite unmarshalDepositVersion0_unfold.
  destruct (Z.ltb_spec (len opaqueData) 73) as [Hshort|Hlong]; [reflexivity|].
  assert (Hl : uint64 (73 + uint64 (uint64 (len opaqueData) - 73)) = len opaqueData).
  { unfold_ints. rewrite (Z.mod_small (len opaqueData)) by lia.
    rewrite (Z.mod_small (len opaqueData - 73)) by lia.
    rewrite Z.mod_small by lia. lia. }
  rewrite Hl, slice_to_end by lia. reflexivity.
Qed.

(** ** [UnmarshalDepositLogEvent] behind steps 1 to 4 *)

Lemma headerChecksPass_inv (ev : Log) :
  headerChecksPass ev = true ->
  len (log_Topics ev) = 4 /\ topic ev 0 = DepositEventABIHash
  /\ 64 <= len (log_Data ev) /\ len (log_Data ev) mod 32 = 0
  /\ SetBytes (slice 0 32 (log_Data ev)) = 32.
Proof.
  unfold headerChecksPass. intros H.
  repeat (apply andb_prop in H as [H ?]).
  repeat split;
    first [now apply Z.eqb_eq | now apply bytes_eqb_eq | now apply Z.leb_le].
Qed.

Lemma lengthWordOk_inv (ev : Log) :
  lengthWordOk ev = true ->
  opaqueLengthWord ev <= uint64_max
  /\ opaqueLengthWord ev <= len (log_Data ev) - 64
  /\ opaqueLengthWord ev + 32 > len (log_Data ev) - 64.
Proof.
  unfold lengthWordOk. cbv zeta. intros H.
  repeat (apply andb_prop in H as [H ?]).
  apply Z.leb_le in H. apply Z.leb_le in H1. apply Z.ltb_lt in H0. lia.
Qed.

Lemma opaqueLengthWord_nonneg (ev : Log) : 0 <= opaqueLengthWord ev.
Proof. unfold opaqueLengthWord. apply SetBytes_bound. Qed.

(** Once steps 1 to 4 pass, the result is that of step 5 and what follows. *)
Lemma UnmarshalDepositLogEvent_after_header (ev : Log) :
  goSlice (log_Data ev) -> headerChecksPass ev = true ->
  UnmarshalDepositLogEvent ev =
  if lengthWordOk ev then
    if bytes_eqb (topic ev 3) DepositEventVersion0 then
      match unmarshalDepositVersion0 (recipientOf ev) (opaqueDataOf ev) with
      | inl err => inl (ErrDecodeDeposit (topic ev 3) err)
      | inr tx => inr tx
      end
    else inl (ErrDepositVersion (topic ev 3))
  else inl (ErrHeaderLength (Uint64 (opaqueLengthWord ev))).
Proof.
  intros Hgo Hhdr.
  destruct (headerChecksPass_inv ev Hhdr) as (Ht & Hsel & Hlen & Hmod & Hoff).
  unfold UnmarshalDepositLogEvent.
  rewrite Ht, Hsel, bytes_eqb_refl, Hmod, Hoff.
  replace (len (log_Data ev) <? 64) with false by (symmetry; apply Z.ltb_ge; lia).
  cbn [negb Z.eqb Pos.eqb].
  change (negb (IsUint64 32) || negb (Uint64 32 =? 32)) with false.
  cbv zeta. cbv iota.
  rewrite (length_test_spec (len (log_Data ev)) (SetBytes (slice 32 64 (log_Data ev))))
    by (unfold goSlice in Hgo; try split; try lia; apply SetBytes_bound).
  fold (opaqueLengthWord ev). fold (recipientOf ev).
  change ((opaqueLengthWord ev <=? uint64_max)
          && (opaqueLengthWord ev <=? len (log_Data ev) - 64)
          && (len (log_Data ev) - 64 <? opaqueLengthWord ev + 32))
    with (lengthWordOk ev).
  destruct (lengthWordOk ev) eqn:Hok; cbn [negb]; [|reflexivity].
  destruct (lengthWordOk_inv ev Hok) as (Hfit & Hle & _).
  pose proof (opaqueLengthWord_nonneg ev) as H0.
  assert (Hu : uint64 (64 + Uint64 (opaqueLengthWord ev))
               = 64 + Uint64 (opaqueLengthWord ev)).
  { unfold goSlice in Hgo. unfold_ints.
    rewrite (Z.mod_small (opaqueLengthWord ev)) by lia. apply Z.mod_small. lia. }
  rewrite Hu. reflexivity.
Qed.

(** The opaque payload has the length its length word announces. *)
Lemma len_opaqueDataOf (ev : Log) :
  lengthWordOk ev = true -> len (opaqueDataOf ev) = opaqueLengthWord ev.
Proof.
  intros H. destruct (lengthWordOk_inv ev H) as (Hfit & Hle & _).
  pose proof (opaqueLengthWord_nonneg ev) as H0.
  unfold opaqueDataOf.
  assert (Hu : Uint64 (opaqueLengthWord ev) = opaqueLengthWord ev)
    by (unfold_ints; apply Z.mod_small; lia).
  rewrite Hu, len_slice by lia. lia.
Qed.

(** The message a well-formed version-0 log decodes to. *)
Lemma UnmarshalDepositLogEvent_wellFormed (ev : Log) :
  goSlice (log_Data ev) -> wellFormedVersion0 ev = true ->
  UnmarshalDepositLogEvent ev =
  inr {| QueueIndex := 0;
         Gas := SetBytes (slice 64 72 (opaqueDataOf ev));
         To := if creationFlag ev =? 0 then Some (recipientOf ev) else None;
         Value := SetBytes (slice 32 64 (opaqueDataOf ev));
         Data := slice_from 73 (opaqueDataOf ev);
         Sender := zeroAddress |}.
Proof.
  intros Hgo Hwf. unfold wellFormedVersion0 in Hwf.
  apply andb_prop in Hwf as [Hwf H73]. apply andb_prop in Hwf as [Hwf Hver].
  apply andb_prop in Hwf as [Hhdr Hlw]. apply Z.leb_le in H73.
  rewrite UnmarshalDepositLogEvent_after_header, Hlw, Hver by assumption.
  pose proof (len_opaqueDataOf ev Hlw) as Hlen.
  destruct (lengthWordOk_inv ev Hlw) as (Hfit & _ & _).
  rewrite unmarshalDepositVersion0_eq by lia.
  replace (len (opaqueDataOf ev) <? 73) with false by (symmetry; apply Z.ltb_ge; lia).
  reflexivity.
Qed.

(** ** What the decoder guarantees *)



(** The data of the fixture logs are Go slices. *)
Lemma goSlice_logA : goSlice (log_Data Fixture.logA).
Proof. vm_compute. discriminate. Defined.


(** C6.  For a well-formed version-0 log the decode succeeds, and the
    recipient of the message is the address of the indexed [to] topic when
    the byte at offset 72 of the opaque payload is 0, and unset for every
    other value of that byte. *)
Theorem creation_flag_polarity (ev : Log) :
  goSlice (log_Data ev) -> wellFormedVersion0 ev = true ->
  exists m, UnmarshalDepositLogEvent ev = inr m
    /\ (creationFlag ev = 0 -> To m = Some (recipientOf ev))
    /\ (creationFlag ev <> 0 -> To m = None).
Proof.
  intros Hgo Hwf. eexists. split.
  - apply UnmarshalDepositLogEvent_wellFormed; assumption.
  - cbn [To]. split; intros Hflag.
    + rewrite Hflag. reflexivity.
    + apply Z.eqb_neq in Hflag. rewrite Hflag. reflexivity.
Qed.

Lemma goSlice_logCreate : goSlice (log_Data Fixture.logCreate).
Proof. vm_compute. discriminate. Defined.

(** C6 at [Fixture.logA], whose flag byte is 0, and at
    [Fixture.logCreate], whose flag byte is 1. *)
Lemma creation_flag_polarity_witness :
  (exists m, UnmarshalDepositLogEvent Fixture.logA = inr m
     /\ (creationFlag Fixture.logA = 0 -> To m = Some (recipientOf Fixture.logA))
     /\ (creationFlag Fixture.logA <> 0 -> To m = None))
  /\ (exists m, UnmarshalDepositLogEvent Fixture.logCreate = inr m
     /\ (creationFlag Fixture.logCreate = 0 -> To m = Some (recipientOf Fixture.logCreate))
     /\ (creationFlag Fixture.logCreate <> 0 -> To m = None)).
Proof.
  split.
  - apply (creation_flag_polarity Fixture.logA goSlice_logA). vm_compute. reflexivity.
  - apply (creation_flag_polarity Fixture.logCreate goSlice_logCreate).
    vm_compute. reflexivity.
Defined.

(** C7.  For a log that passes steps 1 to 4, with [D] the data length and
    [L] the second 32-byte word: the decode gets past step 5 exactly when
    [L] fits 64 bits, [L <= D - 64] and [L + 32 > D - 64]; otherwise it
    returns the length-header error and no message. *)
Theorem length_word_validation (ev : Log) :
  goSlice (log_Data ev) -> headerChecksPass ev = true ->
  let D := len (log_Data ev) in
  let L := opaqueLengthWord ev in
  (pastLengthCheck (UnmarshalDepositLogEvent ev) = true
   <-> L <= uint64_max /\ L <= D - 64 /\ L + 32 > D - 64)
  /\ (pastLengthCheck (UnmarshalDepositLogEvent ev) = false ->
      UnmarshalDepositLogEvent ev = inl (ErrHeaderLength (Uint64 L))).
Proof.
  intros Hgo Hhdr D L.
  rewrite (UnmarshalDepositLogEvent_after_header ev Hgo Hhdr).
  destruct (lengthWordOk ev) eqn:Hok.
  - assert (Hpast : pastLengthCheck
        (if bytes_eqb (topic ev 3) DepositEventVersion0
         then match unmarshalDepositVersion0 (recipientOf ev) (opaqueDataOf ev) with
              | inl err => inl (ErrDecodeDeposit (topic ev 3) err)
              | inr tx => inr tx
              end
         else inl (ErrDepositVersion (topic ev 3))) = true).
    { destruct (bytes_eqb (topic ev 3) DepositEventVersion0); [|reflexivity].
      destruct (unmarshalDepositVersion0 (recipientOf ev) (opaqueDataOf ev)); reflexivity. }
    rewrite Hpast. split.
    + split; [intros _; apply lengthWordOk_inv; assumption | reflexivity].
    + discriminate.
  - cbn [pastLengthCheck]. split; [|reflexivity].
    split; [discriminate|]. intros (Hfit & Hle & Hpad). exfalso.
    unfold lengthWordOk in Hok. cbv zeta in Hok. fold D L in Hok.
    apply andb_false_iff in Hok as [Hok|Hok];
      [apply andb_false_iff in Hok as [Hok|Hok]|].
    + apply Z.leb_gt in Hok. lia.
    + apply Z.leb_gt in Hok. lia.
    + apply Z.ltb_ge in Hok. lia.
Qed.

Lemma goSlice_logOverPadded : goSlice (log_Data Fixture.logOverPadded).
Proof. vm_compute. discriminate. Defined.

(** C7 at [Fixture.logOverPadded], whose length word leaves room for a
    whole padding word: the length-header error. *)
Lemma length_word_validation_witness :
  UnmarshalDepositLogEvent Fixture.logOverPadded
  = inl (ErrHeaderLength (Uint64 (opaqueLengthWord Fixture.logOverPadded))).
Proof.
  apply (length_word_validation Fixture.logOverPadded goSlice_logOverPadded).
  - vm_compute. reflexivity.
  - vm_compute. reflexivity.
Defined.

(** C9.  The gas limit is read from the eight bytes 64 to 72 of the opaque
    payload, and eight bytes always fit 64 bits: the version-0 decode never
    returns the bad-gas error, and it returns a message for every payload
    of at least 73 bytes. *)
Theorem gas_rejection_unreachable (to : Address) (opaqueData : Bytes) :
  IsUint64 (SetBytes (slice 64 (64 + 8) opaqueData)) = true
  /\ (forall raw, unmarshalDepositVersion0 to opaqueData <> inl (ErrBadGasValue raw))
  /\ (if len opaqueData <? 73
      then unmarshalDepositVersion0 to opaqueData
           = inl (ErrOpaqueDataLength (len opaqueData))
      else exists m, unmarshalDepositVersion0 to opaqueData = inr m
                     /\ Gas m = SetBytes (slice 64 (64 + 8) opaqueData)).
Proof.
  split; [apply eight_bytes_IsUint64|].
  rewrite unmarshalDepositVersion0_unfold.
  destruct (len opaqueData <? 73); split; try discriminate; try reflexivity.
  eexists. split; reflexivity.
Qed.

(** * Properties of [deriveFromReceipt] *)

Lemma multierror_Append_aggregate (errs : list ItemError) (e : ItemError) :
  multierror_Append (aggregate errs) e = aggregate (errs ++ [e]).
Proof. destruct errs; reflexivity. Qed.

Lemma errorsOf_aggregate (errs : list ItemError) : errorsOf (aggregate errs) = errs.
Proof. destruct errs; reflexivity. Qed.

Lemma decodedMessages_app (a b : list (Z * Z * Log)) :
  decodedMessages (a ++ b) = decodedMessages a ++ decodedMessages b.
Proof. unfold decodedMessages. apply flat_map_app. Qed.

Lemma decodeFailures_app (a b : list (Z * Z * Log)) :
  decodeFailures (a ++ b) = decodeFailures a ++ decodeFailures b.
Proof. unfold decodeFailures. apply flat_map_app. Qed.

(** A receipt that did not succeed selects nothing. *)
Lemma receiptItemsFrom_failed (addr : Address) (i : Z) (rec : Receipt) (logs : list Log) :
  (rec_Status rec =? ReceiptStatusSuccessful) = false ->
  forall j, receiptItemsFrom addr i rec j logs = [].
Proof.
  intros Hst. unfold receiptItemsFrom, selected. rewrite Hst.
  induction logs as [|lg logs IH]; intros j; cbn; [reflexivity | apply IH].
Qed.

(** The inner loop appends the decoded messages and the failures of the
    selected logs, in log order. *)
Lemma deriveLogs_spec (addr : Address) (i : Z) (rec : Receipt) :
  (rec_Status rec =? ReceiptStatusSuccessful) = true ->
  forall logs j out errs,
    deriveLogs addr i j logs (out, aggregate errs)
    = (out ++ decodedMessages (receiptItemsFrom addr i rec j logs),
       aggregate (errs ++ decodeFailures (receiptItemsFrom addr i rec j logs))).
Proof.
  intros Hst. induction logs as [|lg logs IH]; intros j out errs.
  - cbn. now rewrite !app_nil_r.
  - cbn [deriveLogs]. unfold receiptItemsFrom in *. cbn [indexed flat_map snd fst].
    unfold selected at 1 3. rewrite Hst. cbn [andb]. unfold deriveLog.
    destruct (isDepositLog addr lg).
    + rewrite decodedMessages_app, decodeFailures_app.
      unfold decodedMessages at 1, decodeFailures at 1. cbn [flat_map snd fst].
      destruct (UnmarshalDepositLogEvent lg) as [err|msg].
      * rewrite multierror_Append_aggregate, IH. cbn [app]. now rewrite <- app_assoc.
      * rewrite IH. cbn [app]. now rewrite <- app_assoc.
    + rewrite IH. reflexivity.
Qed.

(** The outer loop, from receipt index [i]. *)
Lemma deriveReceipts_spec (addr : Address) :
  forall receipts i out errs,
    deriveReceipts addr i receipts (out, aggregate errs)
    = (out ++ decodedMessages
                (flat_map (fun ir : Z * Receipt => receiptItems addr (fst ir) (snd ir))
                          (indexed i receipts)),
       aggregate (errs ++ decodeFailures
                (flat_map (fun ir : Z * Receipt => receiptItems addr (fst ir) (snd ir))
                          (indexed i receipts)))).
Proof.
  induction receipts as [|rec receipts IH]; intros i out errs.
  - cbn. now rewrite !app_nil_r.
  - cbn [deriveReceipts indexed flat_map fst snd].
    rewrite decodedMessages_app, decodeFailures_app. unfold receiptItems at 1 3.
    destruct (rec_Status rec =? ReceiptStatusSuccessful) eqn:Hst; cbn [negb].
    + rewrite (deriveLogs_spec addr i rec Hst), IH. now rewrite <- !app_assoc.
    + rewrite (receiptItemsFrom_failed addr i rec (rec_Logs rec) Hst), IH. reflexivity.
Qed.

(** [deriveFromReceipt] returns the messages of the selected logs that
    decode and the aggregate of the failures of those that do not. *)
Lemma deriveFromReceipt_eq (receipts : list Receipt) (addr : Address) :
  deriveFromReceipt receipts addr
  = (decodedMessages (depositLogs receipts addr),
     aggregate (decodeFailures (depositLogs receipts addr))).
Proof.
  unfold deriveFromReceipt, depositLogs.
  change (@None MultiError) with (aggregate []).
  now rewrite deriveReceipts_spec.
Qed.

(** Every selected log yields one message or one failure. *)
Lemma len_decodedMessages (items : list (Z * Z * Log)) :
  len (decodedMessages items) = len (filter decodes items).
Proof.
  induction items as [|it items IH]; [reflexivity|].
  change (it :: items) with ([it] ++ items) at 1. rewrite decodedMessages_app.
  rewrite len_app, IH. cbn [filter]. unfold decodedMessages, decodes. cbn [flat_map].
  destruct (UnmarshalDepositLogEvent (snd it)); cbn [app]; rewrite ?len_cons;
    change (len (@nil L1Message)) with 0; lia.
Qed.

Lemma len_decodeFailures (items : list (Z * Z * Log)) :
  len (decodeFailures items) = len (filter (fun it => negb (decodes it)) items).
Proof.
  induction items as [|it items IH]; [reflexivity|].
  change (it :: items) with ([it] ++ items) at 1. rewrite decodeFailures_app.
  rewrite len_app, IH. cbn [filter]. unfold decodeFailures, decodes. cbn [flat_map].
  destruct (UnmarshalDepositLogEvent (snd it)); cbn [negb app]; rewrite ?len_cons;
    change (len (@nil ItemError)) with 0; lia.
Qed.

Lemma len_decoded_plus_failures (items : list (Z * Z * Log)) :
  len (decodedMessages items) + len (decodeFailures items) = len items.
Proof.
  induction items as [|it items IH]; [reflexivity|].
  change (it :: items) with ([it] ++ items) at 1 2.
  rewrite decodedMessages_app, decodeFailures_app.
  rewrite !len_app, len_cons. unfold decodedMessages at 1, decodeFailures at 1.
  cbn [flat_map]. destruct (UnmarshalDepositLogEvent (snd it)); cbn [app];
    rewrite ?len_cons; change (len (@nil L1Message)) with 0;
    change (len (@nil ItemError)) with 0; lia.
Qed.

Lemma In_decodedMessages (items : list (Z * Z * Log)) (m : L1Message) :
  In m (decodedMessages items) <->
  exists it, In it items
    /\ UnmarshalDepositLogEvent (snd it) = inr (L1Tx m)
    /\ L1Height m = log_BlockNumber (snd it)
    /\ L1TxHash m = log_TxHash (snd it).
Proof.
  unfold decodedMessages. rewrite in_flat_map. split.
  - intros (it & Hin & Hm). exists it. split; [assumption|].
    destruct (UnmarshalDepositLogEvent (snd it)) as [err|msg]; [contradiction|].
    destruct Hm as [<-|[]]. cbn. repeat split.
  - intros (it & Hin & Hdec & Hh & Hx). exists it. split; [assumption|].
    rewrite Hdec. left. destruct m as [tx h x]. cbn in *. congruence.
Qed.

Lemma In_decodeFailures (items : list (Z * Z * Log)) (e : ItemError) :
  In e (decodeFailures items) <->
  exists it, In it items
    /\ UnmarshalDepositLogEvent (snd it) = inl (item_cause e)
    /\ item_receipt e = fst (fst it)
    /\ item_log e = snd (fst it).
Proof.
  unfold decodeFailures. rewrite in_flat_map. split.
  - intros (it & Hin & He). exists it. split; [assumption|].
    destruct (UnmarshalDepositLogEvent (snd it)) as [err|msg]; [|contradiction].
    destruct He as [<-|[]]. cbn. repeat split.
  - intros (it & Hin & Hdec & Hi & Hj). exists it. split; [assumption|].
    rewrite Hdec. left. destruct e as [i j c]. cbn in *. congruence.
Qed.

(** [indexed] pairs the element at every position with its index. *)
Lemma In_indexed {A : Type} (l : list A) :
  forall (i k : Z) (x : A),
    In (k, x) (indexed i l) <-> i <= k /\ nth_error l (Z.to_nat (k - i)) = Some x.
Proof.
  induction l as [|y l IH]; intros i k x.
  - cbn. split; [contradiction|]. intros [_ H].
    destruct (Z.to_nat (k - i)); discriminate.
  - cbn [indexed In]. rewrite IH. split.
    + intros [Heq|[Hle Hn]].
      * inversion Heq; subst. split; [lia|]. now rewrite Z.sub_diag.
      * split; [lia|].
        replace (Z.to_nat (k - i)) with (Datatypes.S (Z.to_nat (k - (i + 1)))) by lia.
        exact Hn.
    + intros [Hle Hn]. destruct (Z.eq_dec k i) as [->|Hne].
      * left. rewrite Z.sub_diag in Hn. cbn in Hn. congruence.
      * right. split; [lia|].
        replace (Z.to_nat (k - i)) with (Datatypes.S (Z.to_nat (k - (i + 1)))) in Hn by lia.
        exact Hn.
Qed.

(** The selected logs are those of the receipts that succeeded which pass
    the address and selector filter, each found at its two indices. *)
Lemma In_depositLogs (receipts : list Receipt) (addr : Address) (i j : Z) (lg : Log) :
  In (i, j, lg) (depositLogs receipts addr) <->
  0 <= i /\ 0 <= j /\
  exists rec, nth_error receipts (Z.to_nat i) = Some rec
    /\ nth_error (rec_Logs rec) (Z.to_nat j) = Some lg
    /\ selected addr rec lg = true.
Proof.
  unfold depositLogs, receiptItems, receiptItemsFrom. rewrite in_flat_map. split.
  - intros ([i' rec] & Hrec & Hin). cbn [fst snd] in Hin.
    apply in_flat_map in Hin as ([j' lg'] & Hlg & Hsel). cbn [fst snd] in Hsel.
    destruct (selected addr rec lg') eqn:Hs; [|contradiction].
    destruct Hsel as [Heq|[]]. inversion Heq; subst.
    apply In_indexed in Hrec as [Hi Hrec]. apply In_indexed in Hlg as [Hj Hlg].
    rewrite Z.sub_0_r in Hrec, Hlg. repeat split; try assumption. now exists rec.
  - intros (Hi & Hj & rec & Hrec & Hlg & Hsel). exists (i, rec). split.
    + apply In_indexed. rewrite Z.sub_0_r. now split.
    + cbn [fst snd]. apply in_flat_map. exists (j, lg). split.
      * apply In_indexed. rewrite Z.sub_0_r. now split.
      * cbn [fst snd]. rewrite Hsel. now left.
Qed.

(** ** What [deriveFromReceipt] guarantees *)

(** C8.  With [items] the deposit logs of the batch in encounter order,
    [deriveFromReceipt] returns the messages of exactly those items that
    decode, in that order, and an aggregated error with one entry for each
    item that fails: the counts are those of the successes and of the
    failures, and the error is nil only when nothing failed. *)
Theorem deriveFromReceipt_partial_success (receipts : list Receipt) (addr : Address) :
  let items := depositLogs receipts addr in
  deriveFromReceipt receipts addr
  = (decodedMessages items, aggregate (decodeFailures items))
  /\ errorsOf (snd (deriveFromReceipt receipts addr)) = decodeFailures items
  /\ len (fst (deriveFromReceipt receipts addr)) = len (filter decodes items)
  /\ len (errorsOf (snd (deriveFromReceipt receipts addr)))
     = len (filter (fun it => negb (decodes it)) items).
Proof.
  intros items. rewrite deriveFromReceipt_eq. fold items. cbn [fst snd].
  rewrite errorsOf_aggregate.
  repeat split; [apply len_decodedMessages | apply len_decodeFailures].
Qed.

(** The test of the loops is the filter as described. *)
Lemma selected_passesFilterb (addr : Address) (rec : Receipt) (lg : Log) :
  selected addr rec lg = passesFilterb addr rec lg.
Proof.
  unfold selected, passesFilterb, isDepositLog, topic.
  destruct (log_Topics lg) as [|t rest].
  - cbn. now rewrite !andb_false_r.
  - rewrite len_cons. pose proof (len_nonneg rest).
    replace (0 <? len rest + 1) with true by (symmetry; apply Z.ltb_lt; lia).
    cbn [nth]. now rewrite andb_true_r, andb_assoc.
Qed.

Lemma passesFilterb_iff (addr : Address) (rec : Receipt) (lg : Log) :
  passesFilterb addr rec lg = true <-> passesFilter addr rec lg.
Proof.
  unfold passesFilterb, passesFilter. rewrite !andb_true_iff, Z.eqb_eq, bytes_eqb_eq.
  destruct (log_Topics lg) as [|t rest]; cbn [hd_error].
  - split; [intros [_ Hf]; discriminate Hf | intros (_ & _ & Hf); discriminate Hf].
  - rewrite bytes_eqb_eq. split.
    + intros [[Hs Ha] ->]. now repeat split.
    + intros (Hs & Ha & Ht). inversion Ht. now repeat split.
Qed.

Lemma selected_iff (addr : Address) (rec : Receipt) (lg : Log) :
  selected addr rec lg = true <-> passesFilter addr rec lg.
Proof. rewrite selected_passesFilterb. apply passesFilterb_iff. Qed.

(** The loops hand on as many logs as pass the filter. *)
Lemma len_receiptItemsFrom (addr : Address) (i : Z) (rec : Receipt) (logs : list Log) :
  forall j, len (receiptItemsFrom addr i rec j logs)
            = len (filter (passesFilterb addr rec) logs).
Proof.
  unfold receiptItemsFrom.
  induction logs as [|lg logs IH]; intros j; [reflexivity|].
  cbn [indexed flat_map filter fst snd]. rewrite len_app, IH, selected_passesFilterb.
  destruct (passesFilterb addr rec lg); rewrite ?len_cons;
    change (len (@nil (Z * Z * Log))) with 0; lia.
Qed.

Lemma len_depositLogs (receipts : list Receipt) (addr : Address) :
  len (depositLogs receipts addr) = len (filteredLogs receipts addr).
Proof.
  unfold depositLogs, filteredLogs. generalize 0 as i.
  induction receipts as [|rec receipts IH]; intros i; [reflexivity|].
  cbn [indexed flat_map fst snd]. rewrite !len_app, IH.
  unfold receiptItems. now rewrite len_receiptItemsFrom.
Qed.

(** C10.  [deriveFromReceipt] filters before it decodes.  Every message
    and every recorded failure comes from a log that passes the filter: its
    receipt has the successful status, its address is the deposit contract
    and its first topic is the event selector.  Every log that passes the
    filter is decoded and leaves its message or its failure.  The messages
    and failures together are as many as the logs that pass, so a log of a
    failed receipt, of another address, or with another or no first topic
    adds neither; and a batch without a passing log yields no message and a
    nil error. *)
Theorem deriveFromReceipt_filters_before_decoding (receipts : list Receipt) (addr : Address) :
  let out := fst (deriveFromReceipt receipts addr) in
  let errs := errorsOf (snd (deriveFromReceipt receipts addr)) in
  (forall m, In m out ->
     exists i j rec lg,
       nth_error receipts i = Some rec /\ nth_error (rec_Logs rec) j = Some lg
       /\ rec_Status rec = ReceiptStatusSuccessful
       /\ log_Address lg = addr
       /\ hd_error (log_Topics lg) = Some DepositEventABIHash
       /\ UnmarshalDepositLogEvent lg = inr (L1Tx m)
       /\ L1Height m = log_BlockNumber lg /\ L1TxHash m = log_TxHash lg)
  /\ (forall e, In e errs ->
     exists rec lg,
       nth_error receipts (Z.to_nat (item_receipt e)) = Some rec
       /\ nth_error (rec_Logs rec) (Z.to_nat (item_log e)) = Some lg
       /\ rec_Status rec = ReceiptStatusSuccessful
       /\ log_Address lg = addr
       /\ hd_error (log_Topics lg) = Some DepositEventABIHash
       /\ UnmarshalDepositLogEvent lg = inl (item_cause e))
  /\ (forall i j rec lg,
        nth_error receipts i = Some rec -> nth_error (rec_Logs rec) j = Some lg ->
        rec_Status rec = ReceiptStatusSuccessful ->
        log_Address lg = addr ->
        hd_error (log_Topics lg) = Some DepositEventABIHash ->
        match UnmarshalDepositLogEvent lg with
        | inr tx => In (mkL1Message tx (log_BlockNumber lg) (log_TxHash lg)) out
        | inl err => In (mkItemError (Z.of_nat i) (Z.of_nat j) err) errs
        end)
  /\ len out + len errs = len (filteredLogs receipts addr)
  /\ (forall rec lg, passesFilterb addr rec lg = true <->
        rec_Status rec = ReceiptStatusSuccessful
        /\ log_Address lg = addr
        /\ hd_error (log_Topics lg) = Some DepositEventABIHash)
  /\ ((forall rec lg, In rec receipts -> In lg (rec_Logs rec) ->
        ~ (rec_Status rec = ReceiptStatusSuccessful
           /\ log_Address lg = addr
           /\ hd_error (log_Topics lg) = Some DepositEventABIHash)) ->
      deriveFromReceipt receipts addr = ([], None)).
Proof.
  intros out errs. subst out errs. rewrite deriveFromReceipt_eq. cbn [fst snd].
  rewrite errorsOf_aggregate. repeat apply conj.
  - intros m Hm. apply In_decodedMessages in Hm as ([[i j] lg] & Hin & Hdec & Hh & Hx).
    apply In_depositLogs in Hin as (_ & _ & rec & Hrec & Hlg & Hsel).
    apply selected_iff in Hsel as (Hs & Ha & Ht).
    exists (Z.to_nat i), (Z.to_nat j), rec, lg. cbn [snd] in *. repeat split; assumption.
  - intros e He. apply In_decodeFailures in He as ([[i j] lg] & Hin & Hdec & Hi & Hj).
    apply In_depositLogs in Hin as (_ & _ & rec & Hrec & Hlg & Hsel).
    apply selected_iff in Hsel as (Hs & Ha & Ht).
    cbn [fst snd] in *. exists rec, lg. rewrite Hi, Hj. repeat split; assumption.
  - intros i j rec lg Hrec Hlg Hs Ha Ht.
    assert (Hin : In (Z.of_nat i, Z.of_nat j, lg) (depositLogs receipts addr)).
    { apply In_depositLogs. rewrite !Nat2Z.id. repeat split; try lia.
      exists rec. repeat split; try assumption. apply selected_iff. now repeat split. }
    destruct (UnmarshalDepositLogEvent lg) as [err|tx] eqn:Hdec.
    + apply In_decodeFailures. exists (Z.of_nat i, Z.of_nat j, lg).
      cbn [fst snd item_cause item_receipt item_log]. repeat split; assumption.
    + apply In_decodedMessages. exists (Z.of_nat i, Z.of_nat j, lg).
      cbn [fst snd L1Tx L1Height L1TxHash]. repeat split; assumption.
  - rewrite len_decoded_plus_failures. apply len_depositLogs.
  - intros rec lg. apply passesFilterb_iff.
  - intros Hnone.
    assert (Hempty : depositLogs receipts addr = []).
    { destruct (depositLogs receipts addr) as [|[[i j] lg] rest] eqn:Hitems; [reflexivity|].
      assert (Hin : In (i, j, lg) (depositLogs receipts addr))
        by (rewrite Hitems; now left).
      apply In_depositLogs in Hin as (_ & _ & rec & Hrec & Hlg & Hsel).
      apply selected_iff in Hsel.
      now contradiction (Hnone rec lg (nth_error_In _ _ Hrec) (nth_error_In _ _ Hlg)). }
    rewrite Hempty. reflexivity.
Qed.

(** * Properties of the executor *)

Section ExecutorProperties.
Context {G S : Type} `{L2Client G} `{SyncerReader S} `{WireCodec} `{ExecutorHelpers S}.

(** A proposal returned without error and with transactions carries, in
    this order, the engine's transactions, the serialized header as its
    second result and the serialized payload as its third. *)
Lemma RequestBlockData_success_inv (e : Executor S) (height : Z) (n n' : Node G)
    (txs : list Bytes) (headerBytes payloadBytes : Bytes) :
  RequestBlockData e height n
  = (mkBlockData txs (Some headerBytes) (Some payloadBytes) None, n') ->
  exists sy l2Block,
    syncer e = Some sy
    /\ txs = Transactions l2Block
    /\ BLS_MarshalBinary
         {| bm_ParentHash := ParentHash l2Block; bm_Miner := Miner l2Block;
            bm_Number := Number l2Block; bm_GasLimit := GasLimit l2Block;
            bm_BaseFee := BaseFee l2Block; bm_Timestamp := Timestamp l2Block |}
       = inr headerBytes
    /\ NonBLS_MarshalBinary
         {| nbm_StateRoot := StateRoot l2Block; nbm_GasUsed := GasUsed l2Block;
            nbm_ReceiptRoot := ReceiptRoot l2Block; nbm_LogsBloom := LogsBloom l2Block;
            nbm_Extra := Extra l2Block;
            nbm_L1Messages :=
              ReadL1MessagesInRange sy
                (uint64 (latestProcessedL1Index e + 1))
                (uint64 (latestProcessedL1Index e + maxL1MsgNumPerBlock e)) |}
       = inr payloadBytes.
Proof.
  unfold RequestBlockData, bind, authClient_AssembleL2Block, ret.
  destruct (syncer e) as [sy|]; [|discriminate].
  destruct (AssembleL2Block _ _ _) as [err|l2Block]; [discriminate|].
  destruct (len (Transactions l2Block) =? 0); [discriminate|].
  destruct (BLS_MarshalBinary _) as [err|hb] eqn:Hhb; [discriminate|].
  destruct (NonBLS_MarshalBinary _) as [err|pb] eqn:Hpb; [discriminate|].
  intros Heq. inversion Heq; subst. exists sy, l2Block. repeat split; assumption.
Qed.

(** [DeliverBlock] behind the height query. *)
Lemma DeliverBlock_after_height (e : Executor S) (txs : list Bytes)
    (l2Config zkConfig : option Bytes) (validators : list Address)
    (blsSignatures : list Bytes) (n : Node G) (height : Z) :
  BlockNumber (engine n) = inr height ->
  emptyInput txs l2Config zkConfig = false ->
  DeliverBlock e txs l2Config zkConfig validators blsSignatures n =
  let n1 := mkNode (engine n) (sent n ++ [CallBlockNumber]) in
  match BLS_UnmarshalBinary (bytesOf zkConfig) with
  | inl err => ((e, (int64 height, Some err)), n1)
  | inr bm =>
      match NonBLS_UnmarshalBinary (bytesOf l2Config) with
      | inl err => ((e, (int64 height, Some err)), n1)
      | inr nbm =>
          if uint64 (height + 1) =? bm_Number bm then
            match NewL2Block (engine n) (executableL2Data bm nbm txs) with
            | (g, Some err) =>
                ((e, (int64 height, Some err)),
                 mkNode g (sent n1 ++ [CallNewL2Block (executableL2Data bm nbm txs)]))
            | (g, None) =>
                ((fst (updateLatestProcessedL1Index e txs), (int64 height, None)),
                 mkNode g (sent n1 ++ [CallNewL2Block (executableL2Data bm nbm txs)]))
            end
          else ((e, (int64 height, Some ErrWrongBlockNumber)), n1)
      end
  end.
Proof.
  intros Hh Hne. unfold DeliverBlock, bind, ethClient_BlockNumber.
  rewrite Hh, Hne. cbv zeta.
  destruct (BLS_UnmarshalBinary (bytesOf zkConfig)) as [err|bm]; [reflexivity|].
  destruct (NonBLS_UnmarshalBinary (bytesOf l2Config)) as [err|nbm]; [reflexivity|].
  destruct (uint64 (height + 1) =? bm_Number bm); cbn [negb]; [|reflexivity].
  unfold authClient_NewL2Block. cbn [engine sent].
  destruct (NewL2Block (engine n) (executableL2Data bm nbm txs)) as [g [err|]];
    [reflexivity|].
  destruct (updateLatestProcessedL1Index e txs) as [e' ignored]. reflexivity.
Qed.

(** C2 (amended).  [CheckBlockData] is gated on the role like
    [RequestBlockData]: on an executor without a syncer every call, empty
    or not, returns the not-allowed error and sends nothing to the engine.
    On an executor with a syncer an empty input returns [(false, nil)], and
    a non-empty input is deserialized: a header or payload that does not
    decode, or an inclusion check that fails, returns that error, and
    otherwise the verdict is the engine's for the rebuilt block. *)
Theorem CheckBlockData_by_role (e : Executor S) (txs : list Bytes)
    (l2Config zkConfig : option Bytes) (n : Node G) :
  (syncer e = None ->
     CheckBlockData e txs l2Config zkConfig n
     = ((false, Some ErrCheckBlockDataNotAllowed), n))
  /\ (syncer e <> None -> emptyInput txs l2Config zkConfig = true ->
     CheckBlockData e txs l2Config zkConfig n = ((false, None), n))
  /\ (syncer e <> None -> emptyInput txs l2Config zkConfig = false ->
     (forall err, BLS_UnmarshalBinary (bytesOf zkConfig) = inl err ->
        CheckBlockData e txs l2Config zkConfig n = ((false, Some err), n))
     /\ (forall bm err, BLS_UnmarshalBinary (bytesOf zkConfig) = inr bm ->
        NonBLS_UnmarshalBinary (bytesOf l2Config) = inl err ->
        CheckBlockData e txs l2Config zkConfig n = ((false, Some err), n))
     /\ (forall bm nbm err, BLS_UnmarshalBinary (bytesOf zkConfig) = inr bm ->
        NonBLS_UnmarshalBinary (bytesOf l2Config) = inr nbm ->
        validateL1Messages e txs nbm = Some err ->
        CheckBlockData e txs l2Config zkConfig n = ((false, Some err), n))
     /\ (forall bm nbm, BLS_UnmarshalBinary (bytesOf zkConfig) = inr bm ->
        NonBLS_UnmarshalBinary (bytesOf l2Config) = inr nbm ->
        validateL1Messages e txs nbm = None ->
        CheckBlockData e txs l2Config zkConfig n
        = (ValidateL2Block (engine n) (executableL2Data bm nbm txs),
           mkNode (engine n)
                  (sent n ++ [CallValidateL2Block (executableL2Data bm nbm txs)])))).
Proof.
  unfold CheckBlockData. destruct (syncer e) as [sy|].
  - split; [discriminate|]. split; intros _ Hin; rewrite Hin; [reflexivity|].
    repeat split.
    + intros err ->. reflexivity.
    + intros bm err -> ->. reflexivity.
    + intros bm nbm err -> -> ->. reflexivity.
    + intros bm nbm -> -> ->. reflexivity.
  - split; [reflexivity|]. split; intros Hs; now contradiction Hs.
Qed.


(** C4.  A [DeliverBlock] call with non-empty input whose header decodes
    to a number other than the engine's height plus one returns an error,
    the sequencing error once the payload decodes too, and changes
    nothing: the executor, with its [latestProcessedL1Index], is returned
    as it was, the engine is left as it was, and the height query is the
    only request sent, so no import reaches the engine. *)
Theorem DeliverBlock_rejects_wrong_number (e : Executor S) (txs : list Bytes)
    (l2Config zkConfig : option Bytes) (validators : list Address)
    (blsSignatures : list Bytes) (n : Node G) (height : Z) (bm : BLSMessage) :
  BlockNumber (engine n) = inr height ->
  emptyInput txs l2Config zkConfig = false ->
  BLS_UnmarshalBinary (bytesOf zkConfig) = inr bm ->
  bm_Number bm <> uint64 (height + 1) ->
  exists err,
    DeliverBlock e txs l2Config zkConfig validators blsSignatures n
    = ((e, (int64 height, Some err)), mkNode (engine n) (sent n ++ [CallBlockNumber]))
    /\ (forall nbm, NonBLS_UnmarshalBinary (bytesOf l2Config) = inr nbm ->
          err = ErrWrongBlockNumber).
Proof.
  intros Hh Hne Hbm Hnum.
  rewrite (DeliverBlock_after_height e txs l2Config zkConfig _ _ n height Hh Hne).
  cbv zeta. rewrite Hbm.
  destruct (NonBLS_UnmarshalBinary (bytesOf l2Config)) as [err|nbm].
  - exists err. split; [reflexivity | discriminate].
  - replace (uint64 (height + 1) =? bm_Number bm) with false
      by (symmetry; apply Z.eqb_neq; congruence).
    exists ErrWrongBlockNumber. split; [reflexivity | reflexivity].
Qed.

End ExecutorProperties.

(** ** The executor on the bench *)

(** C1.  The sequencer's proposal for height 1 is returned without error
    as [(txs, headerBytes, payloadBytes)], and the wire codec does read
    [headerBytes] back as the header and [payloadBytes] back as the payload
    that were serialized.  Handed on in that order, [CheckBlockData] and
    [DeliverBlock] decode the third argument as the header and the second
    as the payload: both fail with a decode error.  Only with the two byte
    strings exchanged do they recover the header and payload. *)
Theorem RequestBlockData_bytes_do_not_round_trip :
  Bench.proposal
  = mkBlockData Bench.proposedTxs (Some Bench.headerBytes) (Some Bench.payloadBytes) None
  /\ Bench.proposedTxs <> []
  /\ BLS_MarshalBinary Bench.header1 = inr Bench.headerBytes
  /\ NonBLS_MarshalBinary Bench.payload1 = inr Bench.payloadBytes
  /\ BLS_UnmarshalBinary Bench.headerBytes = inr Bench.header1
  /\ NonBLS_UnmarshalBinary Bench.payloadBytes = inr Bench.payload1
  /\ fst (CheckBlockData Bench.sequencer Bench.proposedTxs
             (Some Bench.headerBytes) (Some Bench.payloadBytes) Bench.node0)
     = (false, Some (ErrCodec (len Bench.payloadBytes)))
  /\ snd (fst (DeliverBlock Bench.sequencer Bench.proposedTxs
                  (Some Bench.headerBytes) (Some Bench.payloadBytes) [] [] Bench.node0))
     = (0, Some (ErrCodec (len Bench.payloadBytes)))
  /\ fst (CheckBlockData Bench.sequencer Bench.proposedTxs
             (Some Bench.payloadBytes) (Some Bench.headerBytes) Bench.node0)
     = (true, None).
Proof.
  repeat split; try (vm_compute; reflexivity). vm_compute. discriminate.
Qed.

(** C2 (counterexample).  On the executor built without a syncer,
    [CheckBlockData] answers an empty input, and the sequencer's proposal
    alike, with the not-allowed error instead of [(false, nil)] or a
    verdict. *)
Lemma CheckBlockData_refuses_validator :
  syncer Bench.validator = None
  /\ fst (CheckBlockData Bench.validator [] None None Bench.node0)
     = (false, Some ErrCheckBlockDataNotAllowed)
  /\ fst (CheckBlockData Bench.validator [] None None Bench.node0) <> (false, None)
  /\ fst (CheckBlockData Bench.validator Bench.proposedTxs
             (Some Bench.payloadBytes) (Some Bench.headerBytes) Bench.node0)
     = (false, Some ErrCheckBlockDataNotAllowed).
Proof.
  repeat split; try (vm_compute; reflexivity). vm_compute. discriminate.
Qed.



(** C4 on the bench: the block numbered 1 delivered to the engine at
    height 5. *)
Lemma DeliverBlock_rejects_wrong_number_witness :
  exists err,
    DeliverBlock Bench.sequencer Bench.proposedTxs
      (Some Bench.payloadBytes) (Some Bench.headerBytes) [] [] Bench.node5
    = ((Bench.sequencer, (int64 5, Some err)),
       mkNode (engine Bench.node5) (sent Bench.node5 ++ [CallBlockNumber]))
    /\ (forall nbm,
          NonBLS_UnmarshalBinary (bytesOf (Some Bench.payloadBytes)) = inr nbm ->
          err = ErrWrongBlockNumber).
Proof.
  apply (DeliverBlock_rejects_wrong_number
           Bench.sequencer Bench.proposedTxs
           (Some Bench.payloadBytes) (Some Bench.headerBytes) [] [] Bench.node5
           5 Bench.header1).
  - vm_compute. reflexivity.
  - vm_compute. reflexivity.
  - vm_compute. reflexivity.
  - vm_compute. discriminate.
Defined.

(** * Further properties of the decoder *)

(** The offset test of step 4 holds exactly when the word is not 32. *)
Lemma offset_test_spec (off : Z) :
  0 <= off ->
  negb (IsUint64 off) || negb (Uint64 off =? 32) = negb (off =? 32).
Proof.
  intros H0. unfold_ints.
  destruct (Z.leb_spec off (18446744073709551616 - 1)) as [Hfit|Hbig].
  - replace (0 <=? off) with true by (symmetry; apply Z.leb_le; lia).
    rewrite Z.mod_small by lia. reflexivity.
  - rewrite andb_false_r. cbn [negb orb].
    symmetry. apply negb_true_iff. apply Z.eqb_neq. lia.
Qed.

(** A log that fails one of steps 1 to 4 yields an error of those steps. *)
Lemma UnmarshalDepositLogEvent_header_fails (ev : Log) :
  headerChecksPass ev = false ->
  exists err, UnmarshalDepositLogEvent ev = inl err /\ pastLengthCheck (inl err) = false.
Proof.
  unfold headerChecksPass, UnmarshalDepositLogEvent. intros H.
  destruct (len (log_Topics ev) =? 4); cbn [negb andb] in *;
    [|eexists; split; reflexivity].
  destruct (bytes_eqb (topic ev 0) DepositEventABIHash); cbn [negb andb] in *;
    [|eexists; split; reflexivity].
  destruct (Z.leb_spec 64 (len (log_Data ev))) as [Hlen|Hlen]; cbn [andb] in H.
  - replace (len (log_Data ev) <? 64) with false by (symmetry; apply Z.ltb_ge; lia).
    destruct (len (log_Data ev) mod 32 =? 0); cbn [negb andb] in *;
      [|eexists; split; reflexivity].
    cbv zeta.
    rewrite offset_test_spec by apply SetBytes_bound. rewrite H. cbn [negb].
    eexists; split; reflexivity.
  - replace (len (log_Data ev) <? 64) with true by (symmetry; apply Z.ltb_lt; lia).
    eexists; split; reflexivity.
Qed.

(** X1.  A log decodes to a message exactly when it is a well-formed
    version-0 deposit log: four topics, the selector, whole words of data
    with offset word 32, a length word with minimal padding, version 0 and
    at least 73 payload bytes. *)
Theorem decode_succeeds_iff_wellFormed (ev : Log) :
  goSlice (log_Data ev) ->
  ((exists m, UnmarshalDepositLogEvent ev = inr m) <-> wellFormedVersion0 ev = true).
Proof.
  intros Hgo. split.
  - intros [m Hm]. unfold wellFormedVersion0.
    destruct (headerChecksPass ev) eqn:Hhdr.
    + rewrite (UnmarshalDepositLogEvent_after_header ev Hgo Hhdr) in Hm.
      destruct (lengthWordOk ev) eqn:Hok; [|discriminate].
      destruct (bytes_eqb (topic ev 3) DepositEventVersion0); [|discriminate].
      destruct (lengthWordOk_inv ev Hok) as (Hfit & _ & _).
      rewrite unmarshalDepositVersion0_eq in Hm
        by (rewrite (len_opaqueDataOf ev Hok); exact Hfit).
      rewrite (len_opaqueDataOf ev Hok) in Hm. cbn [andb].
      destruct (Z.ltb_spec (opaqueLengthWord ev) 73); [discriminate|].
      apply Z.leb_le. lia.
    + destruct (UnmarshalDepositLogEvent_header_fails ev Hhdr) as (err & Herr & _).
      rewrite Herr in Hm. discriminate.
  - intros Hwf. eexists. apply UnmarshalDepositLogEvent_wellFormed; assumption.
Qed.

(** X1 at [Fixture.logCreate]. *)
Lemma decode_succeeds_iff_wellFormed_witness :
  exists m, UnmarshalDepositLogEvent Fixture.logCreate = inr m.
Proof.
  apply (decode_succeeds_iff_wellFormed Fixture.logCreate goSlice_logCreate).
  vm_compute. reflexivity.
Defined.

(** X2.  Behind the length check the two remaining rejections are kept
    apart: a version topic other than zero gives the version error, whatever
    the payload holds, and a version-0 payload under 73 bytes gives the
    decode error that wraps the payload length. *)
Theorem version_and_payload_errors (ev : Log) :
  goSlice (log_Data ev) -> headerChecksPass ev = true -> lengthWordOk ev = true ->
  (topic ev 3 <> DepositEventVersion0 ->
     UnmarshalDepositLogEvent ev = inl (ErrDepositVersion (topic ev 3)))
  /\ (topic ev 3 = DepositEventVersion0 -> opaqueLengthWord ev < 73 ->
     UnmarshalDepositLogEvent ev
     = inl (ErrDecodeDeposit (topic ev 3) (ErrOpaqueDataLength (opaqueLengthWord ev)))).
Proof.
  intros Hgo Hhdr Hok.
  rewrite (UnmarshalDepositLogEvent_after_header ev Hgo Hhdr), Hok.
  destruct (lengthWordOk_inv ev Hok) as (Hfit & _ & _).
  split.
  - intros Hv. destruct (bytes_eqb (topic ev 3) DepositEventVersion0) eqn:Heq;
      [apply bytes_eqb_eq in Heq; contradiction | reflexivity].
  - intros Hv Hshort. rewrite Hv, bytes_eqb_refl.
    rewrite unmarshalDepositVersion0_eq
      by (rewrite (len_opaqueDataOf ev Hok); exact Hfit).
    rewrite (len_opaqueDataOf ev Hok).
    replace (opaqueLengthWord ev <? 73) with true by (symmetry; apply Z.ltb_lt; lia).
    reflexivity.
Qed.

Lemma goSlice_logVersion1 : goSlice (log_Data Sample.logVersion1).
Proof. vm_compute. discriminate. Defined.

Lemma goSlice_logShortPayload : goSlice (log_Data Sample.logShortPayload).
Proof. vm_compute. discriminate. Defined.

(** X2 at a log of version 1 and at a log with 40 payload bytes. *)
Lemma version_and_payload_errors_witness :
  UnmarshalDepositLogEvent Sample.logVersion1
  = inl (ErrDepositVersion (topic Sample.logVersion1 3))
  /\ UnmarshalDepositLogEvent Sample.logShortPayload
     = inl (ErrDecodeDeposit (topic Sample.logShortPayload 3)
              (ErrOpaqueDataLength (opaqueLengthWord Sample.logShortPayload))).
Proof.
  split.
  - apply (version_and_payload_errors Sample.logVersion1 goSlice_logVersion1).
    + vm_compute. reflexivity.
    + vm_compute. reflexivity.
    + vm_compute. discriminate.
  - apply (version_and_payload_errors Sample.logShortPayload goSlice_logShortPayload).
    + vm_compute. reflexivity.
    + vm_compute. reflexivity.
    + vm_compute. reflexivity.
    + vm_compute. reflexivity.
Defined.

(** X3.  The data of an accepted log has one length only: 64 bytes of
    header and the payload rounded up to whole 32-byte words, at least 160
    bytes in all; and the call data of the message is the payload without
    its 73 fixed bytes. *)
Theorem accepted_log_layout (ev : Log) (m : L1MessageTx) :
  goSlice (log_Data ev) -> UnmarshalDepositLogEvent ev = inr m ->
  len (log_Data ev) = 64 + 32 * ((opaqueLengthWord ev + 31) / 32)
  /\ 160 <= len (log_Data ev)
  /\ len (Data m) = opaqueLengthWord ev - 73.
Proof.
  intros Hgo Hm.
  destruct (headerChecksPass ev) eqn:Hhdr.
  2:{ destruct (UnmarshalDepositLogEvent_header_fails ev Hhdr) as (err & Herr & _).
      rewrite Herr in Hm. discriminate. }
  rewrite (UnmarshalDepositLogEvent_after_header ev Hgo Hhdr) in Hm.
  destruct (lengthWordOk ev) eqn:Hok; [|discriminate].
  destruct (bytes_eqb (topic ev 3) DepositEventVersion0); [|discriminate].
  destruct (lengthWordOk_inv ev Hok) as (Hfit & Hle & Hpad).
  destruct (headerChecksPass_inv ev Hhdr) as (_ & _ & _ & Hmod & _).
  pose proof (len_opaqueDataOf ev Hok) as Hlen.
  rewrite unmarshalDepositVersion0_eq in Hm by (rewrite Hlen; exact Hfit).
  rewrite Hlen in Hm.
  destruct (Z.ltb_spec (opaqueLengthWord ev) 73) as [|H73]; [discriminate|].
  inversion Hm; subst m; clear Hm. cbn [Data].
  assert (HD : len (slice_from 73 (opaqueDataOf ev)) = opaqueLengthWord ev - 73).
  { unfold slice_from, len in *. rewrite length_skipn. lia. }
  rewrite HD. pose proof (Z.div_mod (len (log_Data ev)) 32 ltac:(lia)) as Hdm.
  rewrite Hmod in Hdm.
  repeat split; try lia.
  symmetry. replace (len (log_Data ev)) with (64 + 32 * (len (log_Data ev) / 32 - 2)) at 1 by lia.
  f_equal. f_equal. symmetry. apply Z.div_unique with (r := opaqueLengthWord ev + 31 - 32 * (len (log_Data ev) / 32 - 2)); lia.
Qed.

(** X3 at [Fixture.logA]: 75 payload bytes in 160 bytes of data. *)
Lemma accepted_log_layout_witness :
  len (log_Data Fixture.logA) = 64 + 32 * ((opaqueLengthWord Fixture.logA + 31) / 32)
  /\ 160 <= len (log_Data Fixture.logA)
  /\ len [xca; xfe] = opaqueLengthWord Fixture.logA - 73.
Proof.
  apply (accepted_log_layout Fixture.logA
           {| QueueIndex := 0; Gas := 100000; To := Some Fixture.bob; Value := 5;
              Data := [xca; xfe]; Sender := zeroAddress |} goSlice_logA).
  vm_compute. reflexivity.
Defined.

(** ** Slices of concatenations *)

Lemma slice_app_l {A : Type} (lo hi : Z) (a b : list A) :
  0 <= lo -> hi <= len a -> slice lo hi (a ++ b) = slice lo hi a.
Proof.
  intros Hlo Hhi. unfold slice, len in *.
  destruct (Z_le_gt_dec (hi - lo) 0) as [Hz|Hpos].
  - replace (Z.to_nat (hi - lo)) with 0%nat by lia. reflexivity.
  - rewrite skipn_app, firstn_app, length_skipn.
    replace (Z.to_nat (hi - lo) - (length a - Z.to_nat lo))%nat with 0%nat by lia.
    cbn [firstn]. now rewrite app_nil_r.
Qed.

Lemma slice_app_r {A : Type} (lo hi : Z) (a b : list A) :
  len a <= lo -> slice lo hi (a ++ b) = slice (lo - len a) (hi - len a) b.
Proof.
  intros Hlo. unfold slice, len in *. pose proof (Nat2Z.is_nonneg (length a)).
  rewrite skipn_app, skipn_all2 by lia. cbn [app].
  replace (hi - Z.of_nat (length a) - (lo - Z.of_nat (length a))) with (hi - lo) by lia.
  replace (Z.to_nat lo - length a)%nat with (Z.to_nat (lo - Z.of_nat (length a))) by lia.
  reflexivity.
Qed.

Lemma slice_all {A : Type} (a : list A) : slice 0 (len a) a = a.
Proof.
  unfold slice, len. cbn [Z.to_nat skipn]. rewrite Z.sub_0_r, Nat2Z.id.
  apply firstn_all.
Qed.

(** X4.  The decoder reads the topics, the 64 header bytes, the payload
    the length word delimits and the length of the data, and nothing else:
    two logs that share topics and those bytes and have padding of the same
    length decode alike, whatever the padding bytes are, the emitting
    address, the block number or the transaction hash. *)
Theorem padding_bytes_are_not_read (topics : list Hash) (body pad pad' : Bytes)
    (addr addr' : Address) (blk blk' : Z) (txh txh' : Hash) :
  len pad = len pad' ->
  64 + Uint64 (SetBytes (slice 32 64 body)) <= len body ->
  UnmarshalDepositLogEvent (mkLog addr topics (body ++ pad) blk txh)
  = UnmarshalDepositLogEvent (mkLog addr' topics (body ++ pad') blk' txh').
Proof.
  intros Hpad Hbody.
  assert (HU : 0 <= Uint64 (SetBytes (slice 32 64 body)))
    by (unfold_ints; apply Z.mod_pos_bound; lia).
  unfold UnmarshalDepositLogEvent, topic. cbn [log_Topics log_Data].
  rewrite !len_app, <- Hpad.
  rewrite !(slice_app_l 0 32) by lia. rewrite !(slice_app_l 32 64) by lia.
  assert (Hw : uint64 (64 + Uint64 (SetBytes (slice 32 64 body))) <= len body).
  { unfold uint64 at 1. rewrite pow2_64.
    pose proof (Z.mod_le (64 + Uint64 (SetBytes (slice 32 64 body)))
                  18446744073709551616 ltac:(lia) ltac:(lia)). lia. }
  rewrite !(slice_app_l 64 (uint64 (64 + Uint64 (SetBytes (slice 32 64 body)))))
    by (try exact Hw; lia).
  reflexivity.
Qed.

(** X4 at [Fixture.logA] against its copy with [0xff] padding. *)
Lemma padding_bytes_are_not_read_witness :
  UnmarshalDepositLogEvent
    (mkLog Fixture.portal (log_Topics Fixture.logA)
           (slice 0 139 (log_Data Fixture.logA) ++ repeat x00 21) 17 (repeat x11 32))
  = UnmarshalDepositLogEvent Sample.logDirtyPadding.
Proof.
  apply (padding_bytes_are_not_read (log_Topics Fixture.logA)
           (slice 0 139 (log_Data Fixture.logA)) (repeat x00 21) (repeat xff 21)).
  - vm_compute. reflexivity.
  - vm_compute. discriminate.
Defined.

(** ** Bounds on what the decoder returns *)

Lemma UnmarshalDepositLogEvent_inr_bounds (ev : Log) (m : L1MessageTx) :
  UnmarshalDepositLogEvent ev = inr m ->
  QueueIndex m = 0 /\ 0 <= Gas m <= uint64_max /\ 0 <= Value m < 2 ^ 256.
Proof.
  unfold UnmarshalDepositLogEvent. cbv zeta. intros H.
  repeat match type of H with
         | (if ?c then _ else _) = _ => destruct c; try discriminate H
         end.
  destruct (unmarshalDepositVersion0 _ _) as [err|tx] eqn:Hv0; [discriminate|].
  inversion H; subst tx; clear H.
  rewrite unmarshalDepositVersion0_unfold in Hv0.
  match type of Hv0 with (if ?c then _ else _) = _ => destruct c; [discriminate|] end.
  inversion Hv0; subst m; clear Hv0. cbn [QueueIndex Gas Value].
  split; [reflexivity|]. split.
  - match goal with |- context [slice 64 72 ?od] =>
      pose proof (eight_bytes_IsUint64 64 od) as Hu end.
    change (64 + 8) with 72 in Hu. unfold IsUint64 in Hu.
    apply andb_prop in Hu as [Hlo Hhi]. apply Z.leb_le in Hlo, Hhi. lia.
  - match goal with |- context [slice 32 64 ?od] =>
      pose proof (SetBytes_bound (slice 32 64 od)) as [Hlo Hhi];
      pose proof (len_slice_le 32 64 od ltac:(lia)) as Hl end.
    split; [exact Hlo|].
    eapply Z.lt_le_trans; [exact Hhi|].
    change (2 ^ 256) with (256 ^ 32). apply Z.pow_le_mono_r; lia.
Qed.

(** X5.  Every message [deriveFromReceipt] returns carries the queue index
    0, a gas limit within 64 bits and a value within 256 bits. *)
Theorem derived_messages_bounds (receipts : list Receipt) (addr : Address) :
  Forall (fun m => QueueIndex (L1Tx m) = 0
                   /\ 0 <= Gas (L1Tx m) <= uint64_max
                   /\ 0 <= Value (L1Tx m) < 2 ^ 256)
         (fst (deriveFromReceipt receipts addr)).
Proof.
  rewrite deriveFromReceipt_eq. cbn [fst]. apply Forall_forall. intros m Hm.
  apply In_decodedMessages in Hm as (it & _ & Hdec & _).
  exact (UnmarshalDepositLogEvent_inr_bounds _ _ Hdec).
Qed.

(** ** Big-endian words *)

Lemma byte_val_byte_of (z : Z) : byte_val (byte_of z) = z mod 256.
Proof.
  unfold byte_val, byte_of.
  pose proof (Z.mod_pos_bound z 256 ltac:(lia)) as Hr.
  destruct (Byte.of_N (Z.to_N (z mod 256))) as [b|] eqn:Hb.
  - apply Byte.to_of_N in Hb. rewrite Hb. lia.
  - apply Byte.of_N_None_iff in Hb. lia.
Qed.

Lemma length_be_bytes (w : nat) : forall z, length (be_bytes w z) = w.
Proof.
  induction w as [|w IH]; intros z; cbn [be_bytes]; [reflexivity|].
  rewrite length_app, IH. cbn. lia.
Qed.

Lemma len_be_bytes (w : nat) (z : Z) : len (be_bytes w z) = Z.of_nat w.
Proof. unfold len. now rewrite length_be_bytes. Qed.

Lemma SetBytes_snoc (b : Bytes) (x : byte) :
  SetBytes (b ++ [x]) = SetBytes b * 256 + byte_val x.
Proof. unfold SetBytes. now rewrite fold_left_app. Qed.

(** Reading back a word written on [w] bytes gives its low [w] bytes. *)
Lemma SetBytes_be_bytes (w : nat) : forall z, SetBytes (be_bytes w z) = z mod 256 ^ Z.of_nat w.
Proof.
  induction w as [|w IH]; intros z.
  - cbn. now rewrite Z.mod_1_r.
  - cbn [be_bytes]. rewrite SetBytes_snoc, IH, byte_val_byte_of.
    rewrite Nat2Z.inj_succ, Z.pow_succ_r by lia.
    rewrite (Z.rem_mul_r z 256 (256 ^ Z.of_nat w)) by
      (try lia; apply Z.pow_nonzero; lia).
    lia.
Qed.

Lemma SetBytes_be_bytes_small (w : nat) (z : Z) :
  0 <= z < 256 ^ Z.of_nat w -> SetBytes (be_bytes w z) = z.
Proof. intros Hz. rewrite SetBytes_be_bytes. now apply Z.mod_small. Qed.

(** ** The event layout the decoder expects *)

Lemma len_repeat {A : Type} (x : A) (n : nat) : len (repeat x n) = Z.of_nat n.
Proof. unfold len. now rewrite repeat_length. Qed.

Lemma len_packOpaque (mint value gasLimit : Z) (isCreation : byte) (data : Bytes) :
  len (Fixture.packOpaque mint value gasLimit isCreation data) = 73 + len data.
Proof.
  unfold Fixture.packOpaque. rewrite !len_app, !len_be_bytes, len_cons.
  change (len (@nil byte)) with 0. lia.
Qed.

Lemma len_padRight32 (b : Bytes) :
  len (Fixture.padRight32 b) = len b + (- len b) mod 32.
Proof.
  unfold Fixture.padRight32. rewrite len_app, len_repeat.
  pose proof (Z.mod_pos_bound (- len b) 32 ltac:(lia)). lia.
Qed.

Lemma len_padRight32_words (b : Bytes) :
  len (Fixture.padRight32 b) mod 32 = 0
  /\ len b <= len (Fixture.padRight32 b) < len b + 32.
Proof.
  rewrite len_padRight32.
  pose proof (Z.mod_pos_bound (- len b) 32 ltac:(lia)) as Hr.
  split; [|lia].
  rewrite Zplus_mod_idemp_r. replace (len b + - len b) with 0 by lia. reflexivity.
Qed.

(** The address of an address topic. *)
Lemma BytesToAddress_addressTopic (a : Address) :
  len a = 20 -> BytesToAddress (slice_from 12 (Fixture.addressTopic a)) = a.
Proof.
  intros Ha. unfold Fixture.addressTopic, slice_from. change (Z.to_nat 12) with 12%nat.
  change (skipn 12 (repeat x00 12 ++ a)) with a.
  unfold BytesToAddress, AddressLength. rewrite Ha.
  change (20 <? 20) with false. cbv iota. rewrite Ha. reflexivity.
Qed.

Lemma slice_from_app_r {A : Type} (lo : Z) (a b : list A) :
  len a = lo -> slice_from lo (a ++ b) = b.
Proof.
  intros <-. unfold slice_from, len. rewrite Nat2Z.id, skipn_app, skipn_all, Nat.sub_diag.
  reflexivity.
Qed.

Lemma slice_prefix {A : Type} (a b : list A) : slice 0 (len a) (a ++ b) = a.
Proof. rewrite slice_app_l by lia. apply slice_all. Qed.

(** The fields of a packed payload. *)
Lemma packOpaque_fields (mint value gasLimit : Z) (isCreation : byte) (data : Bytes) :
  let od := Fixture.packOpaque mint value gasLimit isCreation data in
  slice 32 64 od = be_bytes 32 value
  /\ slice 64 72 od = be_bytes 8 gasLimit
  /\ nth 72 od x00 = isCreation
  /\ slice_from 73 od = data.
Proof.
  cbv zeta. unfold Fixture.packOpaque. repeat split; reflexivity.
Qed.

(** A deposit log built to the layout is well formed, and its payload is
    the packed payload. *)
Lemma depositLog_wellFormed (contract from to : Address) (opaque : Bytes)
    (blockNumber : Z) (txHash : Hash) :
  let ev := Fixture.depositLog contract from to DepositEventVersion0 opaque
                               blockNumber txHash in
  goSlice (log_Data ev) -> 73 <= len opaque ->
  wellFormedVersion0 ev = true /\ opaqueDataOf ev = opaque.
Proof.
  intros ev Hgo H73.
  assert (Hdata : log_Data ev
                  = be_bytes 32 32 ++ be_bytes 32 (len opaque) ++ Fixture.padRight32 opaque)
    by reflexivity.
  destruct (len_padRight32_words opaque) as (Hmod & Hle & Hlt).
  assert (HD : len (log_Data ev) = 64 + len (Fixture.padRight32 opaque)).
  { rewrite Hdata, !len_app, !len_be_bytes. lia. }
  unfold goSlice in Hgo. rewrite HD in Hgo.
  assert (Hoff : SetBytes (slice 0 32 (log_Data ev)) = 32).
  { rewrite Hdata. change 32 with (len (be_bytes 32 32)) at 1.
    rewrite slice_prefix. reflexivity. }
  assert (HL : opaqueLengthWord ev = len opaque).
  { unfold opaqueLengthWord. rewrite Hdata.
    rewrite slice_app_r by (rewrite len_be_bytes; lia). rewrite len_be_bytes.
    change (32 - Z.of_nat 32) with 0.
    change (64 - Z.of_nat 32) with (len (be_bytes 32 (len opaque))).
    rewrite slice_prefix. apply SetBytes_be_bytes_small.
    change (256 ^ Z.of_nat 32) with (2 ^ 256).
    assert (2 ^ 63 < 2 ^ 256) by reflexivity. unfold max_int in Hgo. lia. }
  assert (Hok : lengthWordOk ev = true).
  { unfold lengthWordOk. cbv zeta. rewrite HL, HD. unfold_ints.
    apply andb_true_intro; split; [apply andb_true_intro; split|];
      [apply Z.leb_le | apply Z.leb_le | apply Z.ltb_lt]; lia. }
  split.
  - unfold wellFormedVersion0, headerChecksPass. rewrite Hok, HL, HD, Hoff.
    change (len (log_Topics ev) =? 4) with true.
    change (topic ev 0) with DepositEventABIHash.
    change (topic ev 3) with DepositEventVersion0.
    rewrite !bytes_eqb_refl. cbn [andb].
    replace ((64 + len (Fixture.padRight32 opaque)) mod 32) with 0
      by (rewrite <- Zplus_mod_idemp_r, Hmod; reflexivity).
    repeat (apply andb_true_intro; split); try reflexivity; apply Z.leb_le; lia.
  - unfold opaqueDataOf. rewrite HL, Hdata.
    replace (Uint64 (len opaque)) with (len opaque)
      by (unfold_ints; symmetry; apply Z.mod_small; lia).
    rewrite slice_app_r by (rewrite len_be_bytes; lia). rewrite len_be_bytes.
    rewrite slice_app_r by (rewrite len_be_bytes; lia). rewrite len_be_bytes.
    replace (64 - Z.of_nat 32 - Z.of_nat 32) with 0 by lia.
    replace (64 + len opaque - Z.of_nat 32 - Z.of_nat 32) with (len opaque) by lia.
    unfold Fixture.padRight32. apply slice_prefix.
Qed.

(** X6.  Decoding inverts the event layout named in the decoder: for a log
    whose data is the offset word 32, the length word and the padded
    packing of mint, value, gas limit, creation flag and call data, the
    message carries that value, that gas limit, that call data, and the
    address of the [to] topic exactly when the flag byte is 0. *)
Theorem decode_inverts_event_layout (contract from to : Address)
    (mint value gasLimit : Z) (isCreation : byte) (data : Bytes)
    (blockNumber : Z) (txHash : Hash) :
  let ev := Fixture.depositLog contract from to DepositEventVersion0
              (Fixture.packOpaque mint value gasLimit isCreation data)
              blockNumber txHash in
  goSlice (log_Data ev) ->
  len to = 20 -> 0 <= value < 2 ^ 256 -> 0 <= gasLimit <= uint64_max ->
  exists m, UnmarshalDepositLogEvent ev = inr m
    /\ Value m = value
    /\ Gas m = gasLimit
    /\ To m = (if byte_val isCreation =? 0 then Some to else None)
    /\ Data m = data
    /\ QueueIndex m = 0.
Proof.
  intros ev Hgo Hto Hvalue Hgas.
  pose proof (len_packOpaque mint value gasLimit isCreation data) as Hlen.
  pose proof (len_nonneg data) as Hd.
  destruct (depositLog_wellFormed contract from to
              (Fixture.packOpaque mint value gasLimit isCreation data)
              blockNumber txHash Hgo ltac:(lia)) as (Hwf & Hod).
  fold ev in Hwf, Hod.
  destruct (packOpaque_fields mint value gasLimit isCreation data)
    as (Hv & Hg & Hf & Hdta).
  eexists. split; [apply UnmarshalDepositLogEvent_wellFormed; assumption|].
  cbn [Value Gas To Data QueueIndex]. unfold creationFlag, recipientOf.
  rewrite Hod, Hv, Hg, Hf, Hdta.
  change (topic ev 2) with (Fixture.addressTopic to).
  rewrite (BytesToAddress_addressTopic to Hto).
  rewrite !SetBytes_be_bytes_small; [repeat split | | ].
  - unfold uint64_max in Hgas. change (256 ^ Z.of_nat 8) with (2 ^ 64). lia.
  - change (256 ^ Z.of_nat 32) with (2 ^ 256). lia.
Qed.

(** X6 for Alice's deposit of [Fixture.logA]. *)
Lemma decode_inverts_event_layout_witness :
  exists m, UnmarshalDepositLogEvent Fixture.logA = inr m
    /\ Value m = 5
    /\ Gas m = 100000
    /\ To m = (if byte_val x00 =? 0 then Some Fixture.bob else None)
    /\ Data m = [xca; xfe]
    /\ QueueIndex m = 0.
Proof.
  apply (decode_inverts_event_layout Fixture.portal Fixture.alice Fixture.bob
           9 5 100000 x00 [xca; xfe] 17 (repeat x11 32) goSlice_logA).
  - reflexivity.
  - split; [discriminate | reflexivity].
  - split; discriminate.
Defined.

(** * Further properties of [deriveFromReceipt] *)

(** The outer loop over a concatenation runs over the first part, then
    over the second with the receipt index carried on. *)
Lemma deriveReceipts_app (addr : Address) (a b : list Receipt) :
  forall i st,
    deriveReceipts addr i (a ++ b) st
    = deriveReceipts addr (i + len a) b (deriveReceipts addr i a st).
Proof.
  induction a as [|rec a IH]; intros i st.
  - cbn [app deriveReceipts]. change (len (@nil Receipt)) with 0. now rewrite Z.add_0_r.
  - cbn [app deriveReceipts]. rewrite IH, len_cons.
    replace (i + 1 + len a) with (i + (len a + 1)) by lia. reflexivity.
Qed.

(** An item with its receipt index moved on by [k]. *)
Lemma receiptItemsFrom_shift (addr : Address) (rec : Receipt) (i k : Z) (logs : list Log) :
  forall j,
    receiptItemsFrom addr (i + k) rec j logs
    = map (fun it : Z * Z * Log => (fst (fst it) + k, snd (fst it), snd it))
          (receiptItemsFrom addr i rec j logs).
Proof.
  unfold receiptItemsFrom.
  induction logs as [|lg logs IH]; intros j; [reflexivity|].
  cbn [indexed flat_map fst snd]. rewrite map_app, IH.
  destruct (selected addr rec lg); reflexivity.
Qed.

Lemma items_shift (addr : Address) (k : Z) (receipts : list Receipt) :
  forall i,
    flat_map (fun ir : Z * Receipt => receiptItems addr (fst ir) (snd ir))
             (indexed (i + k) receipts)
    = map (fun it : Z * Z * Log => (fst (fst it) + k, snd (fst it), snd it))
          (flat_map (fun ir : Z * Receipt => receiptItems addr (fst ir) (snd ir))
                    (indexed i receipts)).
Proof.
  induction receipts as [|rec receipts IH]; intros i; [reflexivity|].
  cbn [indexed flat_map fst snd]. rewrite map_app.
  replace (i + k + 1) with (i + 1 + k) by lia. rewrite IH.
  unfold receiptItems. now rewrite receiptItemsFrom_shift.
Qed.

Lemma decodedMessages_shift (k : Z) (items : list (Z * Z * Log)) :
  decodedMessages
    (map (fun it : Z * Z * Log => (fst (fst it) + k, snd (fst it), snd it)) items)
  = decodedMessages items.
Proof.
  unfold decodedMessages. induction items as [|it items IH]; [reflexivity|].
  cbn [map flat_map snd]. now rewrite IH.
Qed.

Lemma decodeFailures_shift (k : Z) (items : list (Z * Z * Log)) :
  decodeFailures
    (map (fun it : Z * Z * Log => (fst (fst it) + k, snd (fst it), snd it)) items)
  = map (shiftReceipt k) (decodeFailures items).
Proof.
  unfold decodeFailures. induction items as [|it items IH]; [reflexivity|].
  cbn [map flat_map snd fst]. rewrite map_app, IH.
  destruct (UnmarshalDepositLogEvent (snd it)); reflexivity.
Qed.

(** X7.  Deriving from two batches laid end to end gives the messages of
    the first followed by those of the second, and the failures of the
    first followed by those of the second with their receipt indices moved
    on by the length of the first. *)
Theorem deriveFromReceipt_app (a b : list Receipt) (addr : Address) :
  fst (deriveFromReceipt (a ++ b) addr)
  = fst (deriveFromReceipt a addr) ++ fst (deriveFromReceipt b addr)
  /\ errorsOf (snd (deriveFromReceipt (a ++ b) addr))
     = errorsOf (snd (deriveFromReceipt a addr))
       ++ map (shiftReceipt (len a)) (errorsOf (snd (deriveFromReceipt b addr))).
Proof.
  rewrite (deriveFromReceipt_eq a), (deriveFromReceipt_eq b).
  unfold deriveFromReceipt. rewrite deriveReceipts_app.
  change (deriveReceipts addr 0 a ([], None)) with (deriveFromReceipt a addr).
  rewrite (deriveFromReceipt_eq a), deriveReceipts_spec, items_shift.
  fold (depositLogs b addr).
  rewrite decodedMessages_shift, decodeFailures_shift. cbn [fst snd].
  rewrite !errorsOf_aggregate. split; reflexivity.
Qed.

(** * Further properties of the executor *)

Section ExecutorFurther.
Context {G S : Type} `{L2Client G} `{SyncerReader S} `{WireCodec} `{ExecutorHelpers S}.

(** The one request of [RequestBlockData] on an executor with a syncer. *)
Lemma RequestBlockData_sent (e : Executor S) (sy : S) (height : Z) (n : Node G) :
  syncer e = Some sy ->
  sent (snd (RequestBlockData e height n))
  = sent n ++ [CallAssembleL2Block height (map L1Tx (pendingL1Messages e sy))].
Proof.
  intros Hsy.
  unfold RequestBlockData, pendingL1Messages, bind, authClient_AssembleL2Block, ret.
  rewrite Hsy.
  destruct (AssembleL2Block _ _ _) as [err|l2Block]; [reflexivity|].
  destruct (len (Transactions l2Block) =? 0); [reflexivity|].
  destruct (BLS_MarshalBinary _) as [err|hb]; [reflexivity|].
  destruct (NonBLS_MarshalBinary _) as [err|pb]; reflexivity.
Qed.

(** X8.  [RequestBlockData] never changes the engine.  Without a syncer it
    is refused before anything is sent; with one it sends exactly one
    request, the assembly at the asked height of the L1 transactions read
    from the queue indices [latestProcessedL1Index + 1] to
    [latestProcessedL1Index + maxL1MsgNumPerBlock]. *)
Theorem RequestBlockData_requests (e : Executor S) (height : Z) (n : Node G) :
  engine (snd (RequestBlockData e height n)) = engine n
  /\ match syncer e with
     | None =>
         RequestBlockData e height n
         = (mkBlockData [] None None (Some ErrRequestBlockDataNotAllowed), n)
     | Some sy =>
         sent (snd (RequestBlockData e height n))
         = sent n ++ [CallAssembleL2Block height (map L1Tx (pendingL1Messages e sy))]
     end.
Proof.
  unfold RequestBlockData, pendingL1Messages, bind, authClient_AssembleL2Block, ret.
  destruct (syncer e) as [sy|]; [|split; reflexivity].
  destruct (AssembleL2Block _ _ _) as [err|l2Block]; [split; reflexivity|].
  destruct (len (Transactions l2Block) =? 0); [split; reflexivity|].
  destruct (BLS_MarshalBinary _) as [err|hb]; [split; reflexivity|].
  destruct (NonBLS_MarshalBinary _) as [err|pb]; split; reflexivity.
Qed.

(** X9.  What [RequestBlockData] returns is all or nothing: with an error
    there are no transactions; without one the result is either empty in
    all three parts, which is the case exactly when the engine assembled
    no transaction, or it carries transactions and both byte strings. *)
Theorem RequestBlockData_all_or_nothing (e : Executor S) (height : Z) (n : Node G) :
  let p := fst (RequestBlockData e height n) in
  (bd_err p <> None -> bd_txs p = [])
  /\ (bd_err p = None ->
      (bd_txs p = [] /\ bd_l2Config p = None /\ bd_zkConfig p = None
       /\ exists sy l2Block,
            syncer e = Some sy
            /\ AssembleL2Block (engine n) height (map L1Tx (pendingL1Messages e sy))
               = inr l2Block
            /\ Transactions l2Block = [])
      \/ (bd_txs p <> []
          /\ exists headerBytes payloadBytes,
               bd_l2Config p = Some headerBytes /\ bd_zkConfig p = Some payloadBytes)).
Proof.
  unfold RequestBlockData, pendingL1Messages, bind, authClient_AssembleL2Block, ret.
  cbv zeta.
  destruct (syncer e) as [sy|]; cbn [fst]; [|split; [reflexivity | discriminate]].
  destruct (AssembleL2Block _ _ _) as [err|l2Block] eqn:Hasm; cbn [fst];
    [split; [reflexivity | discriminate]|].
  destruct (Z.eqb_spec (len (Transactions l2Block)) 0) as [Hz|Hnz]; cbn [fst].
  - assert (Hnil : Transactions l2Block = []).
    { destruct (Transactions l2Block) as [|tx rest]; [reflexivity|].
      rewrite len_cons in Hz. pose proof (len_nonneg rest). lia. }
    split; [intros Herr; now contradiction Herr|]. intros _. left.
    split; [reflexivity|]. split; [reflexivity|]. split; [reflexivity|].
    exists sy, l2Block. split; [reflexivity|]. split; assumption.
  - destruct (BLS_MarshalBinary _) as [err|hb]; cbn [fst];
      [split; [reflexivity | discriminate]|].
    destruct (NonBLS_MarshalBinary _) as [err|pb]; cbn [fst];
      [split; [reflexivity | discriminate]|].
    split; [intros Herr; now contradiction Herr|]. intros _. right. split.
    + intros Hnil. cbn [bd_txs] in Hnil. rewrite Hnil in Hnz. now apply Hnz.
    + exists hb, pb. split; reflexivity.
Qed.

(** The three ways [DeliverBlock] can end. *)
Lemma DeliverBlock_cases (e : Executor S) (txs : list Bytes)
    (l2Config zkConfig : option Bytes) (validators : list Address)
    (blsSignatures : list Bytes) (n : Node G) :
  let r := DeliverBlock e txs l2Config zkConfig validators blsSignatures n in
  let n1 := mkNode (engine n) (sent n ++ [CallBlockNumber]) in
  (exists ret, r = ((e, ret), n1)
     /\ (snd ret = None ->
         exists height, BlockNumber (engine n) = inr height
           /\ emptyInput txs l2Config zkConfig = true /\ ret = (int64 height, None)))
  \/ (exists height bm nbm,
        BlockNumber (engine n) = inr height
        /\ emptyInput txs l2Config zkConfig = false
        /\ BLS_UnmarshalBinary (bytesOf zkConfig) = inr bm
        /\ NonBLS_UnmarshalBinary (bytesOf l2Config) = inr nbm
        /\ bm_Number bm = uint64 (height + 1)
        /\ let blk := executableL2Data bm nbm txs in
           let n2 := mkNode (fst (NewL2Block (engine n) blk))
                            (sent n ++ [CallBlockNumber; CallNewL2Block blk]) in
           match snd (NewL2Block (engine n) blk) with
           | Some err => r = ((e, (int64 height, Some err)), n2)
           | None =>
               r = ((fst (updateLatestProcessedL1Index e txs), (int64 height, None)), n2)
           end).
Proof.
  cbv zeta.
  destruct (BlockNumber (engine n)) as [err|height] eqn:Hh.
  - left. exists (0, Some err). split; [|discriminate].
    unfold DeliverBlock, bind, ethClient_BlockNumber. rewrite Hh. reflexivity.
  - destruct (emptyInput txs l2Config zkConfig) eqn:Hin.
    + left. exists (int64 height, None). split.
      * unfold DeliverBlock, bind, ethClient_BlockNumber. rewrite Hh, Hin. reflexivity.
      * intros _. exists height. repeat split.
    + rewrite (DeliverBlock_after_height e txs l2Config zkConfig _ _ n height Hh Hin).
      cbv zeta.
      destruct (BLS_UnmarshalBinary (bytesOf zkConfig)) as [err|bm] eqn:Hbm;
        [left; eexists; split; [reflexivity | discriminate]|].
      destruct (NonBLS_UnmarshalBinary (bytesOf l2Config)) as [err|nbm] eqn:Hnbm;
        [left; eexists; split; [reflexivity | discriminate]|].
      destruct (Z.eqb_spec (uint64 (height + 1)) (bm_Number bm)) as [Hnum|Hnum];
        [|left; eexists; split; [reflexivity | discriminate]].
      right. exists height, bm, nbm. repeat split; try congruence.
      cbn [sent]. rewrite <- app_assoc. cbn [app].
      destruct (NewL2Block (engine n) (executableL2Data bm nbm txs)) as [g [err|]];
        reflexivity.
Qed.

(** X10.  [DeliverBlock] moves the cursor only with a successful import:
    whenever it returns an error the executor comes back as it was, and
    whenever the executor comes back changed the call returned no error
    and sent an import after the height query. *)
Theorem DeliverBlock_error_keeps_executor (e : Executor S) (txs : list Bytes)
    (l2Config zkConfig : option Bytes) (validators : list Address)
    (blsSignatures : list Bytes) (n : Node G) :
  let r := DeliverBlock e txs l2Config zkConfig validators blsSignatures n in
  (snd (snd (fst r)) <> None -> fst (fst r) = e)
  /\ (fst (fst r) <> e ->
      snd (snd (fst r)) = None
      /\ fst (fst r) = fst (updateLatestProcessedL1Index e txs)
      /\ exists blk, sent (snd r) = sent n ++ [CallBlockNumber; CallNewL2Block blk]).
Proof.
  cbv zeta.
  destruct (DeliverBlock_cases e txs l2Config zkConfig validators blsSignatures n)
    as [(ret & Hr & _) | (height & bm & nbm & _ & _ & _ & _ & _ & Hr)].
  - rewrite Hr. cbn [fst snd]. split; [reflexivity|]. intros Hne. now contradiction Hne.
  - cbv zeta in Hr.
    destruct (snd (NewL2Block (engine n) (executableL2Data bm nbm txs))) as [err|];
      rewrite Hr; cbn [fst snd sent].
    + split; [reflexivity|]. intros Hne. now contradiction Hne.
    + split; [intros Hne; now contradiction Hne|]. intros _.
      repeat split. eexists. reflexivity.
Qed.

(** X11.  The requests of [DeliverBlock]: the height query always comes
    first; nothing else is sent and the engine stays as it was, or one
    import follows, of a block whose number is the height plus one and
    whose transactions are [txs], and the engine is what that import left.
    No assembly and no validation is ever requested. *)
Theorem DeliverBlock_requests (e : Executor S) (txs : list Bytes)
    (l2Config zkConfig : option Bytes) (validators : list Address)
    (blsSignatures : list Bytes) (n : Node G) :
  let r := DeliverBlock e txs l2Config zkConfig validators blsSignatures n in
  (sent (snd r) = sent n ++ [CallBlockNumber] /\ engine (snd r) = engine n)
  \/ (exists height blk,
        BlockNumber (engine n) = inr height
        /\ Number blk = uint64 (height + 1)
        /\ Transactions blk = txs
        /\ txs <> []
        /\ sent (snd r) = sent n ++ [CallBlockNumber; CallNewL2Block blk]
        /\ engine (snd r) = fst (NewL2Block (engine n) blk)).
Proof.
  cbv zeta.
  destruct (DeliverBlock_cases e txs l2Config zkConfig validators blsSignatures n)
    as [(ret & Hr & _) | (height & bm & nbm & Hh & Hin & _ & _ & Hnum & Hr)].
  - left. rewrite Hr. split; reflexivity.
  - right. exists height, (executableL2Data bm nbm txs). cbv zeta in Hr.
    assert (Htxs : txs <> []).
    { intros ->. unfold emptyInput in Hin. cbn in Hin. discriminate. }
    destruct (snd (NewL2Block (engine n) (executableL2Data bm nbm txs))) as [err|];
      rewrite Hr; cbn [fst snd sent engine]; repeat split; assumption.
Qed.

(** X12.  An empty round: when the engine assembles a block without
    transactions, [RequestBlockData] returns the empty result and no error;
    handed on, that result makes [CheckBlockData] answer [(false, nil)]
    without asking the engine, and makes [DeliverBlock] confirm the
    engine's height with the executor unchanged and no import sent. *)
Theorem empty_round_is_a_no_op (e : Executor S) (sy : S) (height : Z) (n : Node G)
    (l2Block : ExecutableL2Data) :
  syncer e = Some sy ->
  AssembleL2Block (engine n) height (map L1Tx (pendingL1Messages e sy)) = inr l2Block ->
  Transactions l2Block = [] ->
  let p := fst (RequestBlockData e height n) in
  p = mkBlockData [] None None None
  /\ (forall n2,
        CheckBlockData e (bd_txs p) (bd_l2Config p) (bd_zkConfig p) n2
        = ((false, None), n2))
  /\ (forall n2 h validators blsSignatures,
        BlockNumber (engine n2) = inr h ->
        DeliverBlock e (bd_txs p) (bd_l2Config p) (bd_zkConfig p)
                     validators blsSignatures n2
        = ((e, (int64 h, None)), mkNode (engine n2) (sent n2 ++ [CallBlockNumber]))).
Proof.
  intros Hsy Hasm Hnil p.
  assert (Hp : p = mkBlockData [] None None None).
  { subst p. unfold RequestBlockData, bind, authClient_AssembleL2Block, ret.
    unfold pendingL1Messages in Hasm. rewrite Hsy. cbv zeta. rewrite Hasm, Hnil.
    reflexivity. }
  rewrite Hp. cbn [bd_txs bd_l2Config bd_zkConfig]. split; [reflexivity|]. split.
  - intros n2. unfold CheckBlockData. rewrite Hsy. reflexivity.
  - intros n2 h validators blsSignatures Hh.
    unfold DeliverBlock, bind, ethClient_BlockNumber. rewrite Hh. reflexivity.
Qed.

(** X13.  [CheckBlockData] never changes the engine, and the verdict is
    the engine's or [false]: either nothing is sent and the answer is
    [false], or header and payload decoded, the inclusion check passed, one
    validation of the block rebuilt from them around [txs] was sent, and
    the answer is the engine's answer to it. *)
Theorem CheckBlockData_engine_decides (e : Executor S) (txs : list Bytes)
    (l2Config zkConfig : option Bytes) (n : Node G) :
  let r := CheckBlockData e txs l2Config zkConfig n in
  engine (snd r) = engine n
  /\ ((snd r = n /\ fst (fst r) = false)
      \/ (exists bm nbm,
            BLS_UnmarshalBinary (bytesOf zkConfig) = inr bm
            /\ NonBLS_UnmarshalBinary (bytesOf l2Config) = inr nbm
            /\ validateL1Messages e txs nbm = None
            /\ sent (snd r)
               = sent n ++ [CallValidateL2Block (executableL2Data bm nbm txs)]
            /\ fst r = ValidateL2Block (engine n) (executableL2Data bm nbm txs))).
Proof.
  cbv zeta. unfold CheckBlockData, authClient_ValidateL2Block, ret.
  destruct (syncer e) as [sy|]; [|split; [reflexivity | left; split; reflexivity]].
  destruct (emptyInput txs l2Config zkConfig);
    [split; [reflexivity | left; split; reflexivity]|].
  destruct (BLS_UnmarshalBinary (bytesOf zkConfig)) as [err|bm];
    [split; [reflexivity | left; split; reflexivity]|].
  destruct (NonBLS_UnmarshalBinary (bytesOf l2Config)) as [err|nbm];
    [split; [reflexivity | left; split; reflexivity]|].
  destruct (validateL1Messages e txs nbm) as [err|] eqn:Hval;
    [split; [reflexivity | left; split; reflexivity]|].
  split; [reflexivity|]. right. exists bm, nbm. repeat split; assumption.
Qed.

(** The block rebuilt from the two halves of a block is that block. *)
Lemma executableL2Data_halves (l2Block : ExecutableL2Data) (l1Messages : list L1Message) :
  executableL2Data (headerOf l2Block) (payloadOf l2Block l1Messages)
                   (Transactions l2Block)
  = l2Block.
Proof. destruct l2Block. reflexivity. Qed.

(** X14.  Proposal and check fit together with the byte strings exchanged:
    when the codec reads back the header and the payload it wrote,
    [CheckBlockData] given the payload bytes second and the header bytes
    third asks the engine to validate the very block the sequencer's
    engine assembled, equal in every field the executor carries, and
    returns the engine's verdict on it. *)
Theorem CheckBlockData_validates_assembled_block (e : Executor S) (sy : S)
    (height : Z) (n : Node G) (l2Block : ExecutableL2Data)
    (headerBytes payloadBytes : Bytes) :
  syncer e = Some sy ->
  AssembleL2Block (engine n) height (map L1Tx (pendingL1Messages e sy)) = inr l2Block ->
  Transactions l2Block <> [] ->
  BLS_MarshalBinary (headerOf l2Block) = inr headerBytes ->
  NonBLS_MarshalBinary (payloadOf l2Block (pendingL1Messages e sy)) = inr payloadBytes ->
  BLS_UnmarshalBinary headerBytes = inr (headerOf l2Block) ->
  NonBLS_UnmarshalBinary payloadBytes = inr (payloadOf l2Block (pendingL1Messages e sy)) ->
  validateL1Messages e (Transactions l2Block) (payloadOf l2Block (pendingL1Messages e sy))
  = None ->
  fst (RequestBlockData e height n)
  = mkBlockData (Transactions l2Block) (Some headerBytes) (Some payloadBytes) None
  /\ (forall n2,
        CheckBlockData e (Transactions l2Block) (Some payloadBytes) (Some headerBytes) n2
        = (ValidateL2Block (engine n2) l2Block,
           mkNode (engine n2) (sent n2 ++ [CallValidateL2Block l2Block]))).
Proof.
  intros Hsy Hasm Htxs Hmh Hmp Huh Hup Hval. split.
  - unfold RequestBlockData, bind, authClient_AssembleL2Block, ret.
    unfold pendingL1Messages, headerOf, payloadOf in *. rewrite Hsy. cbv zeta.
    rewrite Hasm.
    replace (len (Transactions l2Block) =? 0) with false.
    + rewrite Hmh, Hmp. reflexivity.
    + symmetry. apply Z.eqb_neq. intros Hz. apply Htxs.
      destruct (Transactions l2Block) as [|tx rest]; [reflexivity|].
      rewrite len_cons in Hz. pose proof (len_nonneg rest). lia.
  - intros n2. unfold CheckBlockData, authClient_ValidateL2Block. rewrite Hsy.
    assert (Hin : emptyInput (Transactions l2Block) (Some payloadBytes) (Some headerBytes)
                  = false).
    { unfold emptyInput. destruct (Transactions l2Block) as [|tx rest];
        [now contradiction Htxs|].
      rewrite len_cons. pose proof (len_nonneg rest).
      replace (len rest + 1 =? 0) with false by (symmetry; apply Z.eqb_neq; lia).
      reflexivity. }
    rewrite Hin. cbn [bytesOf]. rewrite Huh, Hup, Hval, executableL2Data_halves.
    reflexivity.
Qed.

End ExecutorFurther.

(** X12 on the bench: the sequencer with an empty queue at height 1. *)
Lemma empty_round_is_a_no_op_witness :
  let p := fst (RequestBlockData BenchSetup.idleSequencer 1 Bench.node0) in
  p = mkBlockData [] None None None
  /\ (forall n2,
        CheckBlockData BenchSetup.idleSequencer (bd_txs p) (bd_l2Config p)
                       (bd_zkConfig p) n2
        = ((false, None), n2))
  /\ (forall n2 h validators blsSignatures,
        BlockNumber (engine n2) = inr h ->
        DeliverBlock BenchSetup.idleSequencer (bd_txs p) (bd_l2Config p) (bd_zkConfig p)
                     validators blsSignatures n2
        = ((BenchSetup.idleSequencer, (int64 h, None)),
           mkNode (engine n2) (sent n2 ++ [CallBlockNumber]))).
Proof.
  apply (empty_round_is_a_no_op BenchSetup.idleSequencer [] 1 Bench.node0
           (Bench.assemble (Bench.mkEngine 0) 1 [])); reflexivity.
Defined.

(** X14 on the bench: the proposal for height 1 checked by the sequencer
    with the byte strings exchanged. *)
Lemma CheckBlockData_validates_assembled_block_witness :
  fst (RequestBlockData Bench.sequencer 1 Bench.node0)
  = mkBlockData (Transactions Bench.block1) (Some Bench.headerBytes)
                (Some Bench.payloadBytes) None
  /\ (forall n2,
        CheckBlockData Bench.sequencer (Transactions Bench.block1)
                       (Some Bench.payloadBytes) (Some Bench.headerBytes) n2
        = (ValidateL2Block (engine n2) Bench.block1,
           mkNode (engine n2) (sent n2 ++ [CallValidateL2Block Bench.block1]))).
Proof.
  apply (CheckBlockData_validates_assembled_block Bench.sequencer [Bench.deposit1]
           1 Bench.node0 Bench.block1 Bench.headerBytes Bench.payloadBytes).
  - reflexivity.
  - vm_compute. reflexivity.
  - vm_compute. discriminate.
  - vm_compute. reflexivity.
  - vm_compute. reflexivity.
  - vm_compute. reflexivity.
  - vm_compute. reflexivity.
  - reflexivity.
Defined.

(** * The constructors and the roles *)

Section ConstructorProperties.
Context {G S : Type} `{L2Client G} `{SyncerReader S} `{WireCodec} `{ExecutorHelpers S}
        `{Dialer}.

(** X15.  An executor that [NewExecutor] returns has no syncer and the
    cursor 0: it refuses every [RequestBlockData] and every
    [CheckBlockData] call with the call's own not-allowed error, sending
    nothing, while [DeliverBlock] is open to it and confirms the engine's
    height on empty input. *)
Theorem NewExecutor_only_delivers (config : Config) (e : Executor S) :
  NewExecutor config = inr e ->
  syncer e = None
  /\ latestProcessedL1Index e = 0
  /\ (forall height (n : Node G),
        RequestBlockData e height n
        = (mkBlockData [] None None (Some ErrRequestBlockDataNotAllowed), n))
  /\ (forall txs l2Config zkConfig (n : Node G),
        CheckBlockData e txs l2Config zkConfig n
        = ((false, Some ErrCheckBlockDataNotAllowed), n))
  /\ (forall validators blsSignatures (n : Node G) h,
        BlockNumber (engine n) = inr h ->
        DeliverBlock e [] None None validators blsSignatures n
        = ((e, (int64 h, None)), mkNode (engine n) (sent n ++ [CallBlockNumber]))).
Proof.
  unfold NewExecutor. intros Hnew.
  destruct (authclient_DialContext _ _); [discriminate|].
  destruct (ethclient_Dial _); [discriminate|].
  inversion Hnew; subst e; clear Hnew.
  split; [reflexivity|]. split; [reflexivity|]. split; [reflexivity|].
  split; [reflexivity|].
  intros validators blsSignatures n h Hh.
  unfold DeliverBlock, bind, ethClient_BlockNumber. rewrite Hh. reflexivity.
Qed.

(** X16.  [NewSequencerExecutor] returns no executor without a syncer,
    whether or not the endpoints answer.  An executor it returns holds the
    given syncer, the configured bound and the cursor 0, so its first
    [RequestBlockData] asks the engine to assemble the queue indices 1 to
    that bound. *)
Theorem NewSequencerExecutor_starts_at_one (config : Config) :
  NewSequencerExecutor (S := S) config None = inl ErrSyncerRequired
  /\ forall (syncerArg : option S) (e : Executor S),
       NewSequencerExecutor config syncerArg = inr e ->
       exists sy,
         syncerArg = Some sy
         /\ e = mkExecutor 0 (MaxL1MessageNumPerBlock config) (Some sy)
         /\ forall height (n : Node G),
              sent (snd (RequestBlockData e height n))
              = sent n
                ++ [CallAssembleL2Block height
                      (map L1Tx
                           (ReadL1MessagesInRange sy (uint64 1)
                              (uint64 (MaxL1MessageNumPerBlock config))))].
Proof.
  split; [reflexivity|]. unfold NewSequencerExecutor. intros [sy|] e Hnew; [|discriminate].
  destruct (authclient_DialContext _ _); [discriminate|].
  destruct (ethclient_Dial _); [discriminate|].
  cbv zeta in Hnew. inversion Hnew; subst e; clear Hnew.
  exists sy. split; [reflexivity|]. split; [reflexivity|].
  intros height n.
  unfold RequestBlockData, bind, authClient_AssembleL2Block, ret.
  cbn [syncer latestProcessedL1Index maxL1MsgNumPerBlock]. cbv zeta.
  change (0 + 1) with 1. rewrite Z.add_0_l.
  destruct (AssembleL2Block _ _ _) as [err|l2Block]; [reflexivity|].
  destruct (len (Transactions l2Block) =? 0); [reflexivity|].
  destruct (BLS_MarshalBinary _) as [err|hb]; [reflexivity|].
  destruct (NonBLS_MarshalBinary _) as [err|pb]; reflexivity.
Qed.

End ConstructorProperties.

(** X15 on the bench. *)
Lemma NewExecutor_only_delivers_witness :
  syncer Bench.validator = None
  /\ latestProcessedL1Index Bench.validator = 0
  /\ (forall height (n : Node Bench.Engine),
        RequestBlockData Bench.validator height n
        = (mkBlockData [] None None (Some ErrRequestBlockDataNotAllowed), n))
  /\ (forall txs l2Config zkConfig (n : Node Bench.Engine),
        CheckBlockData Bench.validator txs l2Config zkConfig n
        = ((false, Some ErrCheckBlockDataNotAllowed), n))
  /\ (forall validators blsSignatures (n : Node Bench.Engine) h,
        BlockNumber (engine n) = inr h ->
        DeliverBlock Bench.validator [] None None validators blsSignatures n
        = ((Bench.validator, (int64 h, None)),
           mkNode (engine n) (sent n ++ [CallBlockNumber]))).
Proof.
  apply (NewExecutor_only_delivers (G := Bench.Engine) BenchSetup.config Bench.validator).
  reflexivity.
Defined.

(** * Properties of the configuration *)

(** Destructs, in a hypothesis, a [match] whose scrutinee holds no other. *)
Ltac break_match_in H :=
  match type of H with
  | context [match ?x with _ => _ end] =>
      lazymatch x with
      | context [match _ with _ => _ end] => fail
      | _ => destruct x eqn:?
      end
  end.

Ltac break_match_goal :=
  match goal with
  | |- context [match ?x with _ => _ end] =>
      lazymatch x with
      | context [match _ with _ => _ end] => fail
      | _ => destruct x eqn:?
      end
  end.

Lemma length_fixed (width : nat) (b : Bytes) : length (fixed width b) = width.
Proof.
  unfold fixed. rewrite length_firstn, length_app, repeat_length. lia.
Qed.

Lemma len_fixed (width : nat) (b : Bytes) : len (fixed width b) = Z.of_nat width.
Proof. unfold len. now rewrite length_fixed. Qed.

(** An address always has twenty bytes. *)
Lemma len_BytesToAddress (b : Bytes) : len (BytesToAddress b) = 20.
Proof.
  unfold BytesToAddress, AddressLength, slice_from. pose proof (len_nonneg b) as Hb.
  destruct (Z.ltb_spec 20 (len b)) as [Hlong|Hshort];
    rewrite len_app, len_repeat; unfold len in *; rewrite ?length_skipn; lia.
Qed.

(** The 32 bytes [io.ReadFull] takes from a source that has them. *)
Lemma len_secret (random : Bytes) :
  (len random <? 32) = false -> len (slice 0 32 random) = 32.
Proof. intros Hl. apply Z.ltb_ge in Hl. rewrite len_slice; lia. Qed.

Section ConfigProperties.
Context `{ConfigEnv}.

(** The state a successful [SetCliContext] of the node leaves. *)
Lemma SetCliContext_success_inv (c c' : Config) (ctx : CliContext) (os os' : Os) :
  SetCliContext c ctx os = (c', os', None) ->
  len (JwtSecret (L2 c')) = 32
  /\ EthAddr (L2 c') = cli_L2EthAddr ctx
  /\ EngineAddr (L2 c') = cli_L2EngineAddr ctx
  /\ ReadFile os' (TrimSpace (cli_L2EngineJWTSecret ctx)) <> None
  /\ MaxL1MessageNumPerBlock c'
     = match cli_MaxL1MessageNumPerBlock ctx with
       | Some v => v
       | None => MaxL1MessageNumPerBlock c
       end
  /\ (MaxL1MessageNumPerBlock c <> 0 -> MaxL1MessageNumPerBlock c' <> 0).
Proof.
  unfold SetCliContext, WriteFile. cbv zeta. intros Hrun.
  repeat break_match_in Hrun; try discriminate Hrun;
    repeat match goal with
           | Hx : inl _ = inl _ |- _ => inversion Hx; subst; clear Hx
           | Hx : inr _ = inr _ |- _ => inversion Hx; subst; clear Hx
           | Hx : inl _ = inr _ |- _ => discriminate Hx
           | Hx : inr _ = inl _ |- _ => discriminate Hx
           | Hx : Some _ = Some _ |- _ => inversion Hx; subst; clear Hx
           | Hx : (_, _) = (_, _) |- _ => inversion Hx; subst; clear Hx
           end;
    cbn [L2 JwtSecret EthAddr EngineAddr MaxL1MessageNumPerBlock ReadFile];
    rewrite ?bytes_eqb_refl;
    try match goal with
        | Hx : (len ?r <? 32) = false |- _ => rewrite (len_secret r Hx)
        end;
    repeat match goal with
           | Hx : negb _ = false |- _ => apply negb_false_iff in Hx
           | Hx : (_ =? _) = true |- _ => apply Z.eqb_eq in Hx
           | Hx : (_ =? _) = false |- _ => apply Z.eqb_neq in Hx
           end;
    repeat split; try assumption; try reflexivity; try congruence.
Qed.

(** X17.  What a [SetCliContext] of the node that returns no error leaves
    behind: a 32-byte secret and the two endpoints of the flags in [L2], a
    file under the trimmed secret name, and a bound on L1 messages that is
    the flag's when the flag is set and the old one otherwise, never 0 when
    the old one was not. *)
Theorem SetCliContext_success (c c' : Config) (ctx : CliContext) (os os' : Os) :
  SetCliContext c ctx os = (c', os', None) ->
  len (JwtSecret (L2 c')) = 32
  /\ EthAddr (L2 c') = cli_L2EthAddr ctx
  /\ EngineAddr (L2 c') = cli_L2EngineAddr ctx
  /\ ReadFile os' (TrimSpace (cli_L2EngineJWTSecret ctx)) <> None
  /\ MaxL1MessageNumPerBlock c'
     = match cli_MaxL1MessageNumPerBlock ctx with
       | Some v => v
       | None => MaxL1MessageNumPerBlock c
       end
  /\ (MaxL1MessageNumPerBlock c <> 0 -> MaxL1MessageNumPerBlock c' <> 0).
Proof. apply SetCliContext_success_inv. Qed.

Lemma HexToAddress_nonempty (s : GoString) : (len (HexToAddress s) =? 0) = false.
Proof. unfold HexToAddress. now rewrite len_BytesToAddress. Qed.

(** The node's [SetCliContext] once the secret is at hand: the steps behind
    the secret do not fail when the bound is not set to 0. *)
Lemma SetCliContext_from_file (c : Config) (ctx : CliContext) (os : Os) (data : GoString) :
  (forall level, cli_LogLevel ctx = Some level -> AllowLevel level = true) ->
  cli_MaxL1MessageNumPerBlock ctx <> Some 0 ->
  TrimSpace (cli_L2EngineJWTSecret ctx) <> [] ->
  ReadFile os (TrimSpace (cli_L2EngineJWTSecret ctx)) = Some data ->
  len (FromHex (TrimSpace data)) = 32 ->
  exists c', SetCliContext c ctx os = (c', os, None)
             /\ JwtSecret (L2 c') = FromHex (TrimSpace data).
Proof.
  intros Hlvl Hmax Hname Hread Hlen.
  unfold SetCliContext. cbv zeta.
  assert (Hfn : bytes_eqb (TrimSpace (cli_L2EngineJWTSecret ctx)) [] = false).
  { destruct (bytes_eqb _ []) eqn:Heq; [apply bytes_eqb_eq in Heq; contradiction|reflexivity]. }
  rewrite Hfn, Hread, Hlen. cbn [Z.eqb Pos.eqb negb].
  destruct (cli_LogLevel ctx) as [level|];
    [rewrite (Hlvl level eq_refl)|];
    (destruct (cli_MaxL1MessageNumPerBlock ctx) as [v|];
     [destruct (Z.eqb_spec v 0) as [->|_]; [now contradiction Hmax|]|];
     (destruct (cli_L2CrossDomainMessengerContractAddr ctx) as [s|];
      [cbn [L2CrossDomainMessengerAddress]; rewrite HexToAddress_nonempty|];
      eexists; split; reflexivity)).
Qed.

(** X18.  The secret a first start creates is the secret a later start
    loads.  With no file under the secret's name, a random source that
    gives 32 bytes and a writable name, [SetCliContext] takes those 32
    bytes as the secret and writes them hex-encoded under that name; and run again on
    the files it left, it returns that same secret and writes nothing,
    provided decoding inverts the encoding. *)
Theorem generated_secret_is_loaded_back (c : Config) (ctx : CliContext) (os : Os)
    (random : Bytes) :
  (forall b, len b = 32 -> FromHex (TrimSpace (hexutil_Encode b)) = b) ->
  (forall level, cli_LogLevel ctx = Some level -> AllowLevel level = true) ->
  cli_MaxL1MessageNumPerBlock ctx <> Some 0 ->
  TrimSpace (cli_L2EngineJWTSecret ctx) <> [] ->
  ReadFile os (TrimSpace (cli_L2EngineJWTSecret ctx)) = None ->
  entropy os = Some random -> 32 <= len random ->
  writable os (TrimSpace (cli_L2EngineJWTSecret ctx)) = true ->
  exists c1 os1,
    SetCliContext c ctx os = (c1, os1, None)
    /\ JwtSecret (L2 c1) = slice 0 32 random
    /\ ReadFile os1 (TrimSpace (cli_L2EngineJWTSecret ctx))
       = Some (hexutil_Encode (slice 0 32 random))
    /\ forall c0, exists c2,
         SetCliContext c0 ctx os1 = (c2, os1, None)
         /\ JwtSecret (L2 c2) = slice 0 32 random.
Proof.
  intros Hhex Hlvl Hmax Hname Habs Hent Hlen Hwr.
  assert (Hfull : (len random <? 32) = false) by (apply Z.ltb_ge; lia).
  pose proof (len_secret random Hfull) as Hsecret.
  assert (Hfn : bytes_eqb (TrimSpace (cli_L2EngineJWTSecret ctx)) [] = false).
  { destruct (bytes_eqb _ []) eqn:Heq; [apply bytes_eqb_eq in Heq; contradiction|reflexivity]. }
  set (os1 := mkOs (fun f => if bytes_eqb f (TrimSpace (cli_L2EngineJWTSecret ctx))
                             then Some (hexutil_Encode (slice 0 32 random))
                             else ReadFile os f)
                   (Some random) (writable os)).
  assert (Hread1 : ReadFile os1 (TrimSpace (cli_L2EngineJWTSecret ctx))
                   = Some (hexutil_Encode (slice 0 32 random))).
  { cbn [os1 ReadFile]. now rewrite bytes_eqb_refl. }
  assert (Hfirst : exists c1, SetCliContext c ctx os = (c1, os1, None)
                              /\ JwtSecret (L2 c1) = slice 0 32 random).
  { unfold SetCliContext, WriteFile. cbv zeta. rewrite Hfn, Habs, Hent, Hfull, Hwr. fold os1.
    destruct (cli_LogLevel ctx) as [level|];
      [rewrite (Hlvl level eq_refl)|];
      (destruct (cli_MaxL1MessageNumPerBlock ctx) as [v|];
       [destruct (Z.eqb_spec v 0) as [->|_]; [now contradiction Hmax|]|];
       (destruct (cli_L2CrossDomainMessengerContractAddr ctx) as [s|];
        [cbn [L2CrossDomainMessengerAddress]; rewrite HexToAddress_nonempty|];
        eexists; split; reflexivity)). }
  destruct Hfirst as (c1 & Hrun1 & Hs1).
  exists c1, os1. repeat split; try assumption.
  intros c0.
  destruct (SetCliContext_from_file c0 ctx os1 (hexutil_Encode (slice 0 32 random))
              Hlvl Hmax Hname Hread1) as (c2 & Hrun2 & Hs2).
  - rewrite Hhex by exact Hsecret. exact Hsecret.
  - exists c2. split; [assumption|]. rewrite Hs2. apply Hhex. exact Hsecret.
Qed.

(** A step that never stops with the error [E]. *)
Lemma andThen_never (E : ConfigError) (s : Derivation.Step)
    (k : Derivation.Config -> Derivation.Step) :
  (forall c, s <> inl (c, E)) -> (forall c0 c, k c0 <> inl (c, E)) ->
  forall c, Derivation.andThen s k <> inl (c, E).
Proof.
  intros Hs Hk c. destruct s as [stopped|c0]; cbn [Derivation.andThen];
    [apply Hs | apply Hk].
Qed.

(** A zero check that stops with another error than [E]. *)
Lemma zero_check_never (E E' : ConfigError) (flag : option Z)
    (set : Z -> Derivation.Config) (c0 : Derivation.Config) :
  E' <> E ->
  forall c,
    match flag with
    | Some v => if v =? 0 then inl (set v, E') else inr (set v)
    | None => inr c0
    end <> (inl (c, E) : Derivation.Step).
Proof.
  intros Hne c. destruct flag as [v|]; [destruct (v =? 0)|]; congruence.
Qed.

(** X19.  The address checks of both [SetCliContext] functions guard
    nothing: an address has twenty bytes whatever the flag holds, so
    neither the node's nor the derivation's invalid-address error is ever
    returned. *)
Theorem invalid_address_errors_unreachable (ctx : CliContext) (os : Os) :
  (forall c, snd (SetCliContext c ctx os) <> Some ErrInvalidSyncDepositContractAddr)
  /\ (forall c, snd (Derivation.SetCliContext c ctx os)
                <> Some ErrInvalidDerivationDepositContractAddr).
Proof.
  split; intros c.
  - unfold SetCliContext, WriteFile. cbv zeta.
    repeat (first [rewrite HexToAddress_nonempty | break_match_goal];
            cbn [L2CrossDomainMessengerAddress]);
      cbn [snd]; try discriminate;
      repeat match goal with
             | Hx : inl _ = inl _ |- _ => inversion Hx; subst; clear Hx
             | Hx : inl _ = inr _ |- _ => discriminate Hx
             | Hx : inr _ = inl _ |- _ => discriminate Hx
             end; discriminate.
  - unfold Derivation.SetCliContext. cbv zeta.
    match goal with
    | |- context [match ?flags with inl _ => _ | inr _ => _ end] =>
        assert (Hflags : forall c1, flags <> inl (c1, ErrInvalidDerivationDepositContractAddr));
        [|destruct flags as [[c1 err]|c1]]
    end.
    + apply andThen_never.
      * intros c1. destruct (cli_ZKEvmContractAddress ctx) as [s|]; [|discriminate].
        cbv zeta. rewrite HexToAddress_nonempty. discriminate.
      * intros c0. apply andThen_never;
          [apply zero_check_never; discriminate|].
        intros c2. apply andThen_never;
          [apply zero_check_never; discriminate|].
        intros c3. apply andThen_never;
          [apply zero_check_never; discriminate|].
        intros c4. apply zero_check_never. discriminate.
    + cbn [snd]. intros Heq. inversion Heq; subst. now apply (Hflags c1).
    + unfold WriteFile. repeat break_match_goal; cbn [snd]; try discriminate;
        repeat match goal with
               | Hx : inl _ = inl _ |- _ => inversion Hx; subst; clear Hx
               | Hx : inl _ = inr _ |- _ => discriminate Hx
               | Hx : inr _ = inl _ |- _ => discriminate Hx
               end; discriminate.
Qed.

(** X20.  [SetCliContext] of the node is not all or nothing.  With the
    bound on L1 messages set to 0, no secret file yet and a random source
    that gives 32 bytes, the call returns
    the zero-bound error only after it has created the secret file, and the
    configuration it was given comes back overwritten: the bound is 0 and
    the new secret is in place. *)
Theorem zero_bound_is_rejected_late (c : Config) (ctx : CliContext) (os : Os)
    (random : Bytes) :
  (forall level, cli_LogLevel ctx = Some level -> AllowLevel level = true) ->
  cli_MaxL1MessageNumPerBlock ctx = Some 0 ->
  TrimSpace (cli_L2EngineJWTSecret ctx) <> [] ->
  ReadFile os (TrimSpace (cli_L2EngineJWTSecret ctx)) = None ->
  entropy os = Some random -> 32 <= len random ->
  writable os (TrimSpace (cli_L2EngineJWTSecret ctx)) = true ->
  exists c' os',
    SetCliContext c ctx os = (c', os', Some ErrMaxL1MessageNumZero)
    /\ MaxL1MessageNumPerBlock c' = 0
    /\ JwtSecret (L2 c') = slice 0 32 random
    /\ ReadFile os' (TrimSpace (cli_L2EngineJWTSecret ctx))
       = Some (hexutil_Encode (slice 0 32 random)).
Proof.
  intros Hlvl Hmax Hname Habs Hent Hlen Hwr.
  assert (Hfull : (len random <? 32) = false) by (apply Z.ltb_ge; lia).
  assert (Hfn : bytes_eqb (TrimSpace (cli_L2EngineJWTSecret ctx)) [] = false).
  { destruct (bytes_eqb _ []) eqn:Heq; [apply bytes_eqb_eq in Heq; contradiction|reflexivity]. }
  unfold SetCliContext, WriteFile. cbv zeta. rewrite Hfn, Habs, Hent, Hfull, Hwr, Hmax.
  cbn [Z.eqb].
  destruct (cli_LogLevel ctx) as [level|]; [rewrite (Hlvl level eq_refl)|];
    (eexists; eexists; split; [reflexivity|];
     cbn [MaxL1MessageNumPerBlock L2 JwtSecret ReadFile];
     rewrite bytes_eqb_refl; repeat split).
Qed.

(** A sequence of steps that comes through came through each step. *)
Lemma andThen_inr (s : Derivation.Step) (k : Derivation.Config -> Derivation.Step)
    (c : Derivation.Config) :
  Derivation.andThen s k = inr c -> exists c0, s = inr c0 /\ k c0 = inr c.
Proof.
  destruct s as [stopped|c0]; cbn [Derivation.andThen]; [discriminate|].
  intros Hk. now exists c0.
Qed.

(** A zero check that lets the configuration through. *)
Lemma zero_check_inr (E : ConfigError) (flag : option Z)
    (set : Z -> Derivation.Config) (c0 c1 : Derivation.Config) :
  match flag with
  | Some v => if v =? 0 then inl (set v, E) else inr (set v)
  | None => inr c0
  end = (inr c1 : Derivation.Step) ->
  c1 = match flag with Some v => set v | None => c0 end /\ flag <> Some 0.
Proof.
  destruct flag as [v|]; [destruct (Z.eqb_spec v 0)|]; intros Heq;
    inversion Heq; subst; split; congruence.
Qed.

(** The state a successful [SetCliContext] of the derivation leaves. *)
Lemma Derivation_SetCliContext_success_inv (c c' : Derivation.Config) (ctx : CliContext)
    (os os' : Os) :
  Derivation.SetCliContext c ctx os = (c', os', None) ->
  len (JwtSecret (Derivation.L2 c')) = 32
  /\ Derivation.Addr (Derivation.L1 c') = cli_L1NodeAddr ctx
  /\ Derivation.StartHeight c'
     = match cli_DerivationStartHeight ctx with
       | Some v => v | None => Derivation.StartHeight c end
  /\ Derivation.PollInterval c'
     = match cli_DerivationPollInterval ctx with
       | Some v => v | None => Derivation.PollInterval c end
  /\ Derivation.LogProgressInterval c'
     = match cli_DerivationLogProgressInterval ctx with
       | Some v => v | None => Derivation.LogProgressInterval c end
  /\ Derivation.FetchBlockRange c'
     = match cli_DerivationFetchBlockRange ctx with
       | Some v => v | None => Derivation.FetchBlockRange c end
  /\ cli_DerivationStartHeight ctx <> Some 0
  /\ cli_DerivationPollInterval ctx <> Some 0
  /\ cli_DerivationLogProgressInterval ctx <> Some 0
  /\ cli_DerivationFetchBlockRange ctx <> Some 0.
Proof.
  unfold Derivation.SetCliContext. cbv zeta. intros Hrun.
  match type of Hrun with
  | match ?flags with inl _ => _ | inr _ => _ end = _ =>
      destruct flags as [[cs err]|cF] eqn:Hflags; [discriminate Hrun|]
  end.
  assert (Htail : len (JwtSecret (Derivation.L2 c')) = 32
                  /\ Derivation.L1 c' = Derivation.L1 cF
                  /\ Derivation.StartHeight c' = Derivation.StartHeight cF
                  /\ Derivation.PollInterval c' = Derivation.PollInterval cF
                  /\ Derivation.LogProgressInterval c' = Derivation.LogProgressInterval cF
                  /\ Derivation.FetchBlockRange c' = Derivation.FetchBlockRange cF).
  { clear Hflags. unfold WriteFile in Hrun.
    repeat (break_match_in Hrun; try discriminate Hrun);
      repeat match goal with
             | Hx : inl _ = inl _ |- _ => inversion Hx; subst; clear Hx
             | Hx : inr _ = inr _ |- _ => inversion Hx; subst; clear Hx
             | Hx : inl _ = inr _ |- _ => discriminate Hx
             | Hx : inr _ = inl _ |- _ => discriminate Hx
             end;
      inversion Hrun; subst c' os'; clear Hrun;
      cbn [Derivation.L1 Derivation.L2 JwtSecret Derivation.StartHeight
           Derivation.PollInterval Derivation.LogProgressInterval
           Derivation.FetchBlockRange];
      try match goal with
          | Hx : (len ?r <? 32) = false |- _ => rewrite (len_secret r Hx)
          end;
      repeat match goal with
             | Hx : negb _ = false |- _ => apply negb_false_iff in Hx
             | Hx : (_ =? _) = true |- _ => apply Z.eqb_eq in Hx
             end;
      repeat split; first [assumption | reflexivity]. }
  clear Hrun. destruct Htail as (Hsecret & HL1 & Tsh & Tpi & Tlp & Tfr).
  apply andThen_inr in Hflags as (c1 & Hstep1 & Hflags).
  apply andThen_inr in Hflags as (c2 & Hstep2 & Hflags).
  apply andThen_inr in Hflags as (c3 & Hstep3 & Hflags).
  apply andThen_inr in Hflags as (c4 & Hstep4 & Hstep5).
  apply zero_check_inr in Hstep2 as (Hc2 & Nsh).
  apply zero_check_inr in Hstep3 as (Hc3 & Npi).
  apply zero_check_inr in Hstep4 as (Hc4 & Nlp).
  apply zero_check_inr in Hstep5 as (HcF & Nfr).
  assert (Hc1 : Derivation.StartHeight c1 = Derivation.StartHeight c
                /\ Derivation.PollInterval c1 = Derivation.PollInterval c
                /\ Derivation.LogProgressInterval c1 = Derivation.LogProgressInterval c
                /\ Derivation.FetchBlockRange c1 = Derivation.FetchBlockRange c
                /\ Derivation.Addr (Derivation.L1 c1) = cli_L1NodeAddr ctx).
  { clear - Hstep1.
    destruct (cli_ZKEvmContractAddress ctx) as [s|];
      [cbv zeta in Hstep1; rewrite HexToAddress_nonempty in Hstep1|];
      inversion Hstep1; subst c1; clear Hstep1;
      destruct (cli_L1Confirmations ctx); repeat split. }
  assert (H2 : Derivation.StartHeight c2
               = match cli_DerivationStartHeight ctx with
                 | Some v => v | None => Derivation.StartHeight c1 end
               /\ Derivation.PollInterval c2 = Derivation.PollInterval c1
               /\ Derivation.LogProgressInterval c2 = Derivation.LogProgressInterval c1
               /\ Derivation.FetchBlockRange c2 = Derivation.FetchBlockRange c1
               /\ Derivation.L1 c2 = Derivation.L1 c1)
    by (clear - Hc2; rewrite Hc2; destruct (cli_DerivationStartHeight ctx); repeat split).
  assert (H3 : Derivation.StartHeight c3 = Derivation.StartHeight c2
               /\ Derivation.PollInterval c3
                  = match cli_DerivationPollInterval ctx with
                    | Some v => v | None => Derivation.PollInterval c2 end
               /\ Derivation.LogProgressInterval c3 = Derivation.LogProgressInterval c2
               /\ Derivation.FetchBlockRange c3 = Derivation.FetchBlockRange c2
               /\ Derivation.L1 c3 = Derivation.L1 c2)
    by (clear - Hc3; rewrite Hc3; destruct (cli_DerivationPollInterval ctx); repeat split).
  assert (H4 : Derivation.StartHeight c4 = Derivation.StartHeight c3
               /\ Derivation.PollInterval c4 = Derivation.PollInterval c3
               /\ Derivation.LogProgressInterval c4
                  = match cli_DerivationLogProgressInterval ctx with
                    | Some v => v | None => Derivation.LogProgressInterval c3 end
               /\ Derivation.FetchBlockRange c4 = Derivation.FetchBlockRange c3
               /\ Derivation.L1 c4 = Derivation.L1 c3)
    by (clear - Hc4; rewrite Hc4; destruct (cli_DerivationLogProgressInterval ctx);
        repeat split).
  assert (H5 : Derivation.StartHeight cF = Derivation.StartHeight c4
               /\ Derivation.PollInterval cF = Derivation.PollInterval c4
               /\ Derivation.LogProgressInterval cF = Derivation.LogProgressInterval c4
               /\ Derivation.FetchBlockRange cF
                  = match cli_DerivationFetchBlockRange ctx with
                    | Some v => v | None => Derivation.FetchBlockRange c4 end
               /\ Derivation.L1 cF = Derivation.L1 c4)
    by (clear - HcF; rewrite HcF; destruct (cli_DerivationFetchBlockRange ctx);
        repeat split).
  clear Hc2 Hc3 Hc4 HcF Hstep1.
  destruct Hc1 as (A1 & A2 & A3 & A4 & A5).
  destruct H2 as (B1 & B2 & B3 & B4 & B5).
  destruct H3 as (C1 & C2 & C3 & C4 & C5).
  destruct H4 as (D1 & D2 & D3 & D4 & D5).
  destruct H5 as (E1 & E2 & E3 & E4 & E5).
  rewrite Tsh, Tpi, Tlp, Tfr, HL1, E1, E2, E3, E4, E5, D1, D2, D3, D4, D5,
    C1, C2, C3, C4, C5, B1, B2, B3, B4, B5, A1, A2, A3, A4, A5.
  repeat split; assumption.
Qed.

(** X21.  What a [SetCliContext] of the derivation that returns no error
    leaves behind: a 32-byte secret, the L1 address of the flag, and each
    of the four tunables equal to its flag when the flag is set, which is
    then not 0, and untouched otherwise.  So the intervals and the fetch
    range stay nonzero when they were, and a start height of 0 is the
    untouched one. *)
Theorem Derivation_SetCliContext_success (c c' : Derivation.Config) (ctx : CliContext)
    (os os' : Os) :
  Derivation.SetCliContext c ctx os = (c', os', None) ->
  len (JwtSecret (Derivation.L2 c')) = 32
  /\ Derivation.Addr (Derivation.L1 c') = cli_L1NodeAddr ctx
  /\ (Derivation.PollInterval c <> 0 -> Derivation.PollInterval c' <> 0)
  /\ (Derivation.LogProgressInterval c <> 0 -> Derivation.LogProgressInterval c' <> 0)
  /\ (Derivation.FetchBlockRange c <> 0 -> Derivation.FetchBlockRange c' <> 0)
  /\ (Derivation.StartHeight c' = 0 ->
      cli_DerivationStartHeight ctx = None /\ Derivation.StartHeight c = 0)
  /\ (forall v, cli_DerivationStartHeight ctx = Some v -> Derivation.StartHeight c' = v)
  /\ (forall v, cli_DerivationPollInterval ctx = Some v -> Derivation.PollInterval c' = v)
  /\ (forall v, cli_DerivationLogProgressInterval ctx = Some v ->
                Derivation.LogProgressInterval c' = v)
  /\ (forall v, cli_DerivationFetchBlockRange ctx = Some v ->
                Derivation.FetchBlockRange c' = v).
Proof.
  intros Hrun.
  destruct (Derivation_SetCliContext_success_inv c c' ctx os os' Hrun)
    as (Hs & Ha & Hsh & Hpi & Hlp & Hfr & Nsh & Npi & Nlp & Nfr).
  rewrite Hsh, Hpi, Hlp, Hfr.
  destruct (cli_DerivationStartHeight ctx) as [sh|];
    destruct (cli_DerivationPollInterval ctx) as [pi|];
    destruct (cli_DerivationLogProgressInterval ctx) as [lp|];
    destruct (cli_DerivationFetchBlockRange ctx) as [fr|];
    repeat split; try assumption; try congruence;
    try (intros; subst; congruence).
Qed.

End ConfigProperties.

(** X17 for the default configuration under [BenchConfig.plainCtx]. *)
Lemma SetCliContext_success_witness :
  len (JwtSecret (L2 BenchConfig.nodeConfigAfter)) = 32
  /\ EthAddr (L2 BenchConfig.nodeConfigAfter) = cli_L2EthAddr BenchConfig.plainCtx
  /\ EngineAddr (L2 BenchConfig.nodeConfigAfter) = cli_L2EngineAddr BenchConfig.plainCtx
  /\ ReadFile BenchConfig.osAfter (TrimSpace (cli_L2EngineJWTSecret BenchConfig.plainCtx))
     <> None
  /\ MaxL1MessageNumPerBlock BenchConfig.nodeConfigAfter
     = match cli_MaxL1MessageNumPerBlock BenchConfig.plainCtx with
       | Some v => v
       | None => MaxL1MessageNumPerBlock DefaultConfig
       end
  /\ (MaxL1MessageNumPerBlock DefaultConfig <> 0 ->
      MaxL1MessageNumPerBlock BenchConfig.nodeConfigAfter <> 0).
Proof.
  apply (SetCliContext_success DefaultConfig BenchConfig.nodeConfigAfter
           BenchConfig.plainCtx BenchConfig.freshOs BenchConfig.osAfter).
  reflexivity.
Defined.

(** X18 on a process without a secret file. *)
Lemma generated_secret_is_loaded_back_witness :
  exists c1 os1,
    SetCliContext DefaultConfig BenchConfig.plainCtx BenchConfig.freshOs = (c1, os1, None)
    /\ JwtSecret (L2 c1) = slice 0 32 (repeat xab 32)
    /\ ReadFile os1 (TrimSpace (cli_L2EngineJWTSecret BenchConfig.plainCtx))
       = Some (hexutil_Encode (slice 0 32 (repeat xab 32)))
    /\ forall c0, exists c2,
         SetCliContext c0 BenchConfig.plainCtx os1 = (c2, os1, None)
         /\ JwtSecret (L2 c2) = slice 0 32 (repeat xab 32).
Proof.
  apply (generated_secret_is_loaded_back DefaultConfig BenchConfig.plainCtx
           BenchConfig.freshOs (repeat xab 32)).
  - intros b _. reflexivity.
  - intros level Hlevel. discriminate Hlevel.
  - discriminate.
  - discriminate.
  - reflexivity.
  - reflexivity.
  - discriminate.
  - reflexivity.
Defined.

(** X20 on a process without a secret file, the bound set to 0. *)
Lemma zero_bound_is_rejected_late_witness :
  exists c' os',
    SetCliContext DefaultConfig BenchConfig.zeroMaxCtx BenchConfig.freshOs
    = (c', os', Some ErrMaxL1MessageNumZero)
    /\ MaxL1MessageNumPerBlock c' = 0
    /\ JwtSecret (L2 c') = slice 0 32 (repeat xab 32)
    /\ ReadFile os' (TrimSpace (cli_L2EngineJWTSecret BenchConfig.zeroMaxCtx))
       = Some (hexutil_Encode (slice 0 32 (repeat xab 32))).
Proof.
  apply (zero_bound_is_rejected_late DefaultConfig BenchConfig.zeroMaxCtx
           BenchConfig.freshOs (repeat xab 32)).
  - intros level Hlevel. discriminate Hlevel.
  - reflexivity.
  - discriminate.
  - reflexivity.
  - reflexivity.
  - discriminate.
  - reflexivity.
Defined.

(** X21 for the default configuration of the derivation under
    [BenchConfig.plainCtx]: the defaults stay. *)
Lemma Derivation_SetCliContext_success_witness :
  Derivation.PollInterval BenchConfig.derivationConfigAfter <> 0
  /\ Derivation.FetchBlockRange BenchConfig.derivationConfigAfter <> 0.
Proof.
  pose proof (Derivation_SetCliContext_success Derivation.DefaultConfig
                BenchConfig.derivationConfigAfter BenchConfig.plainCtx
                BenchConfig.freshOs BenchConfig.osAfter eq_refl)
    as (_ & _ & Hpi & _ & Hfr & _).
  split; [apply Hpi | apply Hfr]; discriminate.
Defined.

(** * From the flags to the first proposal *)

Section Startup.
Context {G S : Type} `{L2Client G} `{SyncerReader S} `{WireCodec} `{ExecutorHelpers S}
        `{Dialer} `{ConfigEnv}.

(** X22.  The start of a sequencer as [L2NodeMain] strings it together:
    the default configuration, [SetCliContext] without the flag for the
    bound, then [NewSequencerExecutor].  The executor that results asks, at
    its first [RequestBlockData], for the assembly of the queue indices 1
    to 100. *)
Theorem default_sequencer_reads_first_hundred (ctx : CliContext) (os os' : Os)
    (c' : Config) (sy : S) (e : Executor S) :
  SetCliContext DefaultConfig ctx os = (c', os', None) ->
  cli_MaxL1MessageNumPerBlock ctx = None ->
  NewSequencerExecutor c' (Some sy) = inr e ->
  forall height (n : Node G),
    sent (snd (RequestBlockData e height n))
    = sent n ++ [CallAssembleL2Block height
                   (map L1Tx (ReadL1MessagesInRange sy 1 100))].
Proof.
  intros Hrun Hflag Hnew height n.
  destruct (SetCliContext_success_inv _ _ _ _ _ Hrun) as (_ & _ & _ & _ & Hmax & _).
  rewrite Hflag in Hmax. cbn [DefaultConfig MaxL1MessageNumPerBlock] in Hmax.
  unfold NewSequencerExecutor in Hnew.
  destruct (authclient_DialContext _ _); [discriminate|].
  destruct (ethclient_Dial _); [discriminate|].
  cbv zeta in Hnew. inversion Hnew; subst e; clear Hnew.
  rewrite (RequestBlockData_sent _ sy) by reflexivity.
  unfold pendingL1Messages. cbn [latestProcessedL1Index maxL1MsgNumPerBlock].
  rewrite Hmax. reflexivity.
Qed.

End Startup.

(** X22 on the bench. *)
Lemma default_sequencer_reads_first_hundred_witness :
  sent (snd (RequestBlockData BenchConfig.firstSequencer 1 Bench.node0))
  = sent Bench.node0
    ++ [CallAssembleL2Block 1
          (map L1Tx (ReadL1MessagesInRange [Bench.deposit1] 1 100))].
Proof.
  apply (default_sequencer_reads_first_hundred (G := Bench.Engine)
           BenchConfig.plainCtx BenchConfig.freshOs BenchConfig.osAfter
           BenchConfig.nodeConfigAfter [Bench.deposit1] BenchConfig.firstSequencer).
  - reflexivity.
  - reflexivity.
  - reflexivity.
Defined.
